(** * rally-openstack: Monasca exporter flattening, testr skip lists and the
      context manager life cycle

    The development embeds three parts of the repository:

    - [Monasca]: [MonascaExporter._make_action_report] and
      [MonascaExporter._process_atomic_actions]
      (rally/plugins/common/exporters/monasca/exporter.py);
    - [Testr]: [_expand_skip_list]
      (rally/plugins/common/verification/testr.py);
    - [Context]: the context plugin constructor and the context manager of
      rally/task/context.py, which the unit tests of
      tests/unit/task/test_context.py exercise;
    - [WorkloadMetrics]: [MonascaExporter.create_workload_metrics];
    - [TestrRun]: [TEST_NAME_RE], [TestrLauncher.list_tests],
      [TestrContext.setup] and [TestrContext.cleanup];
    - [Multihost]: [MultihostEngine._update_controller_ip]
      (rally/deploy/engines/multihost.py).

    Python dictionaries are finite maps ([gmap]) with string keys, Python
    exceptions are the [Raise] results of a small error monad, and the
    in-place mutation of the shared [cache] dictionary is explicit state
    passing. *)

From Stdlib Require Import ZArith Ascii String List.
From stdpp Require Import base option list gmap strings fin_maps pretty sorting.

Local Open Scope Z_scope.
Local Open Scope string_scope.
Local Open Scope list_scope.

Set Warnings "-register-all".

(** ** Exceptions and results *)

Inductive pyexc : Type :=
| KeyError (key : string)
| TypeError
| AttributeError (attr : string)
| PluginNotFound (selector : string)
| PluginFailure (plugin : string).

Inductive result (A : Type) : Type :=
| Ok (a : A)
| Raise (e : pyexc).

Arguments Ok {A} a.
Arguments Raise {A} e.

Notation "'let*' x ':=' m 'in' k" :=
  (match m with Ok x => k | Raise e => Raise e end)
  (at level 10, x pattern, m at level 100, k at level 200,
   format "'[v' 'let*'  x  ':='  m  'in' '/' k ']'").

Definition is_ok {A} (r : result A) : bool :=
  match r with Ok _ => true | Raise _ => false end.

(** ** Python values that the exporter only passes around *)

Inductive pyval : Type :=
| PNone
| PBool (b : bool)
| PInt (z : Z)
| PStr (s : string)
| PList (l : list pyval)
| PDict (d : list (string * pyval)).

(** [bool(v)] *)
Definition truthy (v : pyval) : bool :=
  match v with
  | PNone => false
  | PBool b => b
  | PInt z => negb (Z.eqb z 0)
  | PStr s => negb (String.eqb s "")
  | PList l => match l with [] => false | _ => true end
  | PDict d => match d with [] => false | _ => true end
  end.

Module Monasca.

(** ** Data model *)

(** An atomic action node.  The time stamps are epoch seconds, integers as
    in the scenarios of the specification.  [a_failed] is
    [action.get("failed", False)]: a node without the key reads as
    [false]. *)
Inductive action : Type :=
  Action (a_name : string) (a_started_at a_finished_at : Z)
         (a_failed : bool) (a_children : list action).

Definition a_name (a : action) : string :=
  match a with Action n _ _ _ _ => n end.
Definition a_started_at (a : action) : Z :=
  match a with Action _ s _ _ _ => s end.
Definition a_finished_at (a : action) : Z :=
  match a with Action _ _ f _ _ => f end.
Definition a_failed (a : action) : bool :=
  match a with Action _ _ _ b _ => b end.
Definition a_children (a : action) : list action :=
  match a with Action _ _ _ _ ch => ch end.

Record iteration : Type := Iteration {
  i_id : string;
  i_atomic_actions : list action;
  i_error : pyval;
  i_timestamp : Z;
  i_duration : Z;
  i_idle_duration : Z
}.

(** The keys of the workload report that [_make_action_report] reads. *)
Record workload : Type := Workload {
  w_deployment_uuid : pyval;
  w_deployment_name : pyval;
  w_scenario_cfg : pyval;
  w_contexts : pyval;
  w_runner_name : pyval;
  w_runner_cfg : pyval
}.

(** [act_id = {"itr_id": ..., "action_name": ..., "num": ...}] *)
Record act_id : Type := ActId {
  itr_id : string;
  action_name : string;
  num : Z
}.

(** The dictionary that [_make_action_report] builds. *)
Record report : Type := Report {
  r_deployment_uuid : pyval;
  r_deployment_name : pyval;
  r_action_name : string;
  r_workload_uuid : pyval;
  r_scenario_cfg : pyval;
  r_contexts : pyval;
  r_runner_name : pyval;
  r_runner_cfg : pyval;
  r_success : bool;
  r_duration : Z;
  r_started_at : string;
  r_finished_at : string;
  r_parent : option act_id;
  r_error : pyval
}.

(** [_parent] is [None] or the tuple [(act_id, action_report)]. *)
Definition parent_ref : Type := (act_id * report)%type.

Definition _make_action_report (name : string) (workload_id : pyval)
    (w : workload) (duration : Z) (started_at finished_at : string)
    (parent : option parent_ref) (error : pyval) : report :=
  let parent := match parent with Some p => Some (fst p) | None => None end in
  {| r_deployment_uuid := w_deployment_uuid w;
     r_deployment_name := w_deployment_name w;
     r_action_name := name;
     r_workload_uuid := workload_id;
     r_scenario_cfg := w_scenario_cfg w;
     r_contexts := w_contexts w;
     r_runner_name := w_runner_name w;
     r_runner_cfg := w_runner_cfg w;
     r_success := negb (truthy error);
     r_duration := duration;
     r_started_at := started_at;
     r_finished_at := finished_at;
     r_parent := parent;
     r_error := error |}.

(** [atomic_actions[-1]] of a non-empty list. *)
Definition last_action (l : list action) : option action := last l.

Section Flatten.

(** [self._create_action_metric] is not defined in exporter.py; it is taken
    as a parameter, together with the type of the metrics it builds. *)
Context {Metric : Type}.
Variable _create_action_metric : report -> act_id -> Metric.

(** [dt.datetime.utcfromtimestamp(t).strftime(consts.TimeFormat.ISO8601)]:
    the standard library's formatting of an epoch second, with the format
    constant of rally/consts.py. *)
Variable iso8601 : Z -> string.

(** A value stored in the [cache] dictionary: a counter or the list of
    metrics. *)
Inductive cval : Type :=
| CNum (z : Z)
| CList (l : list Metric).

Definition cval_truthy (v : cval) : bool :=
  match v with
  | CNum z => negb (Z.eqb z 0)
  | CList l => match l with [] => false | _ => true end
  end.

(** [d[k]] *)
Definition getitem (d : gmap string cval) (k : string) : result cval :=
  match d !! k with
  | Some v => Ok v
  | None => Raise (KeyError k)
  end.

(** [d.setdefault(k, 0)] *)
Definition setdefault0 (d : gmap string cval) (k : string) : gmap string cval :=
  match d !! k with
  | Some _ => d
  | None => <[k := CNum 0]> d
  end.

(** [act_id = {..., "num": d[k]}; d[k] += 1]: the counter read and its
    increment.  Adding 1 to the list of metrics is a TypeError. *)
Definition take_num (d : gmap string cval) (k : string)
  : result (Z * gmap string cval) :=
  let* v := getitem d k in
  match v with
  | CNum z => Ok (z, <[k := CNum (z + 1)]> d)
  | CList _ => Raise TypeError
  end.

(** [d["metrics"].append(metric)] *)
Definition append_metric (d : gmap string cval) (metric : Metric)
  : result (gmap string cval) :=
  let* v := getitem d "metrics" in
  match v with
  | CList l => Ok (<["metrics" := CList (l ++ [metric])]> d)
  | CNum _ => Raise (AttributeError "append")
  end.

(** [for action in atomic_actions: ...], the body threading the cache. *)
Definition for_each (each : action -> gmap string cval -> result (gmap string cval))
  : list action -> gmap string cval -> result (gmap string cval) :=
  fix go (l : list action) (d : gmap string cval) :=
    match l with
    | [] => Ok d
    | a :: r => let* d' := each a d in go r d'
    end.

(** The condition of the [if] after the loop. *)
Definition unattributed (itr : iteration) (_parent : option parent_ref)
    (atomic_actions : list action) : bool :=
  truthy (i_error itr) &&
  ((negb (bool_decide (is_Some _parent)) &&
    negb (match atomic_actions with [] => false | _ => true end))
   ||
   (negb (bool_decide (is_Some _parent)) &&
    (match atomic_actions with [] => false | _ => true end) &&
    negb (match last_action atomic_actions with
          | Some a => a_failed a
          | None => false
          end))).

(** The body of [_process_atomic_actions] once [atomic_actions] is a list.
    [each] is one pass through the loop body, which calls the function again
    on the children.  The result pairs the returned value with the final
    state of the dictionary object passed as [_cache]: past the depth test
    the local [cache] is that very object unless it is empty, and an empty
    one fails on its first read. *)
Definition body
    (each : action -> option parent_ref -> Z -> gmap string cval ->
            result (gmap string cval))
    (itr : iteration) (w : workload) (workload_id : pyval)
    (atomic_actions : list action) (_parent : option parent_ref)
    (_depth : Z) (_cache : option (gmap string cval))
  : result (cval * gmap string cval) :=
  if bool_decide (3 <= _depth) then
    match _cache with
    | None => Raise TypeError
    | Some c => let* v := getitem c "metrics" in Ok (v, c)
    end
  else
    let cache : gmap string cval :=
      match _cache with
      | Some c => if bool_decide (size c = 0%nat) then ∅ else c
      | None => ∅
      end in
    let* m := getitem cache "metrics" in
    let cache := <["metrics" := if cval_truthy m then m else CList []]> cache in
    let* cache := for_each (fun a d => each a _parent _depth d)
                           atomic_actions cache in
    if unattributed itr _parent atomic_actions then
      let act_id := {| itr_id := i_id itr;
                       action_name := "no-name-action";
                       num := 0 |} in
      let timestamp :=
        i_timestamp itr + i_duration itr + i_idle_duration itr in
      let timestamp := iso8601 timestamp in
      let action_report :=
        _make_action_report "no-name-action" workload_id w 0
                            timestamp timestamp _parent (i_error itr) in
      let metric := _create_action_metric action_report act_id in
      (* cache.metrics.append(metric): a dict has no attribute metrics *)
      Raise (AttributeError "metrics")
    else
      let* v := getitem cache "metrics" in Ok (v, cache).

(** One pass through the loop body (lines 187-220) for [action]. *)
Fixpoint visit (itr : iteration) (w : workload) (workload_id : pyval)
    (action : action) (_parent : option parent_ref) (_depth : Z)
    (cache : gmap string cval) {struct action}
  : result (gmap string cval) :=
  match action with
  | Action name a_started a_finished failed children =>
    let cache := setdefault0 cache name in
    let* (n, cache) := take_num cache name in
    let act_id := {| itr_id := i_id itr; action_name := name; num := n |} in
    let started_at := iso8601 a_started in
    let finished_at := iso8601 a_finished in
    let action_report :=
      _make_action_report name workload_id w (a_finished - a_started)
                          started_at finished_at _parent
                          (if failed then i_error itr else PNone) in
    let metric := _create_action_metric action_report act_id in
    let* cache := append_metric cache metric in
    let* (_, cache) :=
      body (visit itr w workload_id) itr w workload_id children
           (Some (act_id, action_report)) (_depth + 1) (Some cache) in
    Ok cache
  end.

(** [_process_atomic_actions] with the final state of the [_cache]
    object. *)
Definition process_state (itr : iteration) (w : workload)
    (workload_id : pyval) (atomic_actions : option (list action))
    (_parent : option parent_ref) (_depth : Z)
    (_cache : option (gmap string cval)) : result (cval * gmap string cval) :=
  (* the depth test comes first; [atomic_actions is None] is read after it *)
  let atomic_actions :=
    match atomic_actions with
    | Some l => l
    | None => i_atomic_actions itr
    end in
  body (visit itr w workload_id) itr w workload_id atomic_actions
       _parent _depth _cache.

Definition _process_atomic_actions (itr : iteration) (w : workload)
    (workload_id : pyval) (atomic_actions : option (list action))
    (_parent : option parent_ref) (_depth : Z)
    (_cache : option (gmap string cval)) : result cval :=
  let* (v, _) := process_state itr w workload_id atomic_actions
                                _parent _depth _cache in
  Ok v.

End Flatten.

Arguments cval : clear implicits.

(** ** The traversal, stated as plain lists *)

(** The nodes that a pass with [levels] levels left reaches, parents before
    their children and siblings from left to right. *)
Fixpoint within (levels : nat) (acts : list action) : list action :=
  match levels with
  | O => []
  | S n => flat_map (fun a => a :: within n (a_children a)) acts
  end.

(** The nodes exactly [k] levels below the list [acts] (its own elements
    are at depth 0). *)
Fixpoint at_depth (k : nat) (acts : list action) : list action :=
  match k with
  | O => acts
  | S n => flat_map (fun a => at_depth n (a_children a)) acts
  end.

(** How many of the names seen so far equal [name]. *)
Definition occ (seen : list string) (name : string) : Z :=
  Z.of_nat (length (filter (fun m => m = name) seen)).

(** The indices handed out to [names] in turn, from the counts [base] and
    after the names [seen]. *)
Fixpoint nums (base : string -> Z) (seen names : list string) : list Z :=
  match names with
  | [] => []
  | n :: r => (base n + occ seen n) :: nums base (seen ++ [n]) r
  end.

(** The occurrence indices as the specification words them, with a counter
    for each parent: a node gets the number of its earlier siblings of the
    same name.  The list follows the traversal order of [within]. *)
Fixpoint per_parent_indices (levels : nat) (acts : list action) : list Z :=
  match levels with
  | O => []
  | S n =>
    (fix siblings (seen : list string) (l : list action) : list Z :=
       match l with
       | [] => []
       | a :: r =>
         occ seen (a_name a) ::
         per_parent_indices n (a_children a) ++
         siblings (seen ++ [a_name a]) r
       end) [] acts
  end.

Section PassSpec.

Context {Metric : Type}.
Variable _create_action_metric : report -> act_id -> Metric.
Variable iso8601 : Z -> string.
Variable itr : iteration.
Variable w : workload.
Variable workload_id : pyval.

(** The count stored under [k], 0 when there is none. *)
Definition cnt (c : gmap string (cval Metric)) (k : string) : Z :=
  match c !! k with Some (CNum z) => z | _ => 0 end.

(** Every key but ["metrics"] holds a counter. *)
Definition counters_only (c : gmap string (cval Metric)) : Prop :=
  forall k, k <> "metrics" ->
    c !! k = None \/ exists z, c !! k = Some (CNum z).

(** The report of the node [a] below [parent]. *)
Definition node_report (a : action) (parent : option parent_ref) : report :=
  _make_action_report (a_name a) workload_id w
    (a_finished_at a - a_started_at a)
    (iso8601 (a_started_at a)) (iso8601 (a_finished_at a)) parent
    (if a_failed a then i_error itr else PNone).

(** The record [r] is the one emitted for the node [a]. *)
Definition emitted (a : action) (r : report * act_id) : Prop :=
  (exists p, fst r = node_report a p) /\
  itr_id (snd r) = i_id itr /\ action_name (snd r) = a_name a.

Definition metric_of (r : report * act_id) : Metric :=
  _create_action_metric (fst r) (snd r).

(** What a pass over [nodes] that starts in the cache [c], with the metrics
    [l0], leaves behind: the cache [c'] and the records [recs]. *)
Definition post (c : gmap string (cval Metric)) (l0 : list Metric)
    (c' : gmap string (cval Metric)) (recs : list (report * act_id))
    (nodes : list action) : Prop :=
  c' !! "metrics" = Some (CList (l0 ++ map metric_of recs)) /\
  counters_only c' /\
  (forall k, k <> "metrics" ->
     cnt c' k = cnt c k + occ (map a_name nodes) k) /\
  Forall2 emitted nodes recs /\
  map (fun r => num (snd r)) recs = nums (cnt c) [] (map a_name nodes).

End PassSpec.

(** ** Sample data *)

(** Metrics kept as the pair of the report and the identifier. *)
Definition pair_metric (r : report) (i : act_id) : report * act_id := (r, i).

(** A stand-in for the time formatting: the decimal digits of the epoch
    second. *)
Definition epoch_text (z : Z) : string := pretty z.

Definition sample_workload : workload :=
  {| w_deployment_uuid := PStr "d-1";
     w_deployment_name := PStr "devstack";
     w_scenario_cfg := PList [];
     w_contexts := PList [];
     w_runner_name := PStr "constant";
     w_runner_cfg := PList [] |}.

Definition boom : pyval := PDict [("msg", PStr "boom")].

(** [{"metrics": []}] *)
Definition primed : gmap string (cval (report * act_id)) :=
  {["metrics" := CList []]}.

(** A failed action inside a failed action. *)
Definition nested_failure : iteration :=
  {| i_id := "it-1";
     i_atomic_actions :=
       [Action "boot" 0 4 true [Action "wait" 1 4 true []]];
     i_error := boom;
     i_timestamp := 0; i_duration := 4; i_idle_duration := 0 |}.

(** Two parents, each with one child named ["x"]. *)
Definition two_parents : iteration :=
  {| i_id := "it-2";
     i_atomic_actions :=
       [Action "p" 0 2 false [Action "x" 0 1 false []];
        Action "q" 2 4 false [Action "x" 2 3 false []]];
     i_error := PNone;
     i_timestamp := 0; i_duration := 4; i_idle_duration := 0 |}.

(** A chain of four nested actions: ["d"] is at depth 3. *)
Definition chain : iteration :=
  {| i_id := "it-3";
     i_atomic_actions :=
       [Action "a" 0 8 false
          [Action "b" 1 7 false
             [Action "c" 2 6 false
                [Action "d" 3 5 false []]]]];
     i_error := PNone;
     i_timestamp := 0; i_duration := 8; i_idle_duration := 0 |}.

(** The wording of the specification, read on the value a pass returns. *)

(** Exactly one record carries an error. *)
Definition error_on_exactly_one_record
    (out : result (cval (report * act_id))) : Prop :=
  exists l, out = Ok (CList l) /\
    length (filter (fun m => truthy (r_error (fst m)) = true) l) = 1%nat.

(** The occurrence indices of the records are those of a counter for each
    parent. *)
Definition indices_restart_per_parent (acts : list action)
    (out : result (cval (report * act_id))) : Prop :=
  exists l, out = Ok (CList l) /\
    map (fun m => num (snd m)) l = per_parent_indices 3 acts.

(** Every node of [nodes] has a record of its name. *)
Definition each_has_a_record (nodes : list action)
    (out : result (cval (report * act_id))) : Prop :=
  exists l, out = Ok (CList l) /\
    Forall (fun a => Exists (fun m => r_action_name (fst m) = a_name a) l)
           nodes.

End Monasca.

(** ** The testr skip list *)

Module Testr.

Section SkipList.

(** The regular expression engine is Python's [re] module: [re.compile]
    either yields a compiled pattern or raises [re.error] ([None] here),
    and [pattern.search] tells whether the pattern occurs in a string. *)
Context {Pattern : Type}.
Variable re_compile : string -> option Pattern.
Variable re_search : Pattern -> string -> bool.

(** The reasons are opaque values of the skip list. *)
Context {Reason : Type}.

(** [for test in load_list: if pattern.search(test): result[test] = reason] *)
Definition mark_tests (pattern : Pattern) (reason : Reason)
    (load_list : list string) (result : gmap string Reason)
  : gmap string Reason :=
  foldl (fun res test =>
           if re_search pattern test then <[test := reason]> res else res)
        result load_list.

(** One pass through [for regex, reason in regexps.items()]. *)
Definition skip_step (load_list : list string) (result : gmap string Reason)
    (item : string * Reason) : gmap string Reason :=
  match re_compile (fst item) with
  | Some pattern => mark_tests pattern (snd item) load_list result
  | None => <[fst item := snd item]> result
  end.

(** [regexps] is [None] or a dictionary, given by its items in iteration
    order. *)
Definition _expand_skip_list (load_list : list string)
    (regexps : option (list (string * Reason))) : gmap string Reason :=
  let result : gmap string Reason := ∅ in
  match regexps with
  | None => result
  | Some [] => result
  | Some items => foldl (skip_step load_list) result items
  end.

End SkipList.

(** *** Sample data *)

(** A stand-in for the engine: a pattern is a literal that is searched as a
    substring, and a string with an opening bracket does not compile. *)
Definition contains (p t : string) : bool :=
  match index 0 p t with
  | Some _ => true
  | None => false
  end.

Definition literal_compile (s : string) : option string :=
  if contains "[" s then None else Some s.

Definition sample_load_list : list string :=
  ["tempest.api.a"; "tempest.api.b"; "tempest.scenario.c"].

Definition sample_regexps : list (string * string) :=
  [("api", "slow"); ("x[id-1]", "flaky")].

End Testr.

(** ** Context plugins and the context manager *)

Module Context.

(** A raw or merged configuration value of one context. *)
Inductive config : Type :=
| CfgNone
| CfgInt (z : Z)
| CfgStr (s : string)
| CfgList (l : list pyval)
| CfgTuple (l : list pyval)
| CfgDict (m : gmap string pyval).

(** A registered context plugin class: its descriptor, its declared order,
    its [DEFAULT_CONFIG] when it has one, and the outcome of its opaque
    [setup()] and [cleanup()] bodies. *)
Record plugin : Type := Plugin {
  p_name : string;
  p_platform : string;
  p_order : Z;
  p_default_config : option (gmap string pyval);
  p_setup : result unit;
  p_cleanup : result unit
}.

(** The run object: the mapping from context selectors to raw values, in
    key order, and the task reference. *)
Record run : Type := Run {
  run_config : list (string * config);
  run_task : string
}.

(** A context plugin instance. *)
Record instance : Type := Instance {
  c_plugin : plugin;
  c_config : config;
  c_task : string
}.

Definition default_platform : string := "default".

(** The qualified name [name@platform] of a plugin. *)
Definition fullname (p : plugin) : string :=
  p_name p +:+ "@" +:+ p_platform p.

(** Modelled from the spec: the selector format of rally/task/context.py,
    which is not among the sources.  A selector is [name] or
    [name@platform]; it is split at its first [@]. *)
Fixpoint split_selector (s : string) : string * option string :=
  match s with
  | EmptyString => (EmptyString, None)
  | String c r =>
    if Ascii.eqb c "@"%char then (EmptyString, Some r)
    else let (n, p) := split_selector r in (String c n, p)
  end.

(** Modelled from the spec: the configuration merge of the context plugin
    constructor ([Context.__init__] of rally/task/context.py, not among the
    sources).  For a mapping the keys of the override take precedence over
    the defaults; a sequence becomes a tuple; any other value passes through
    as it is.  The values under the keys are opaque to the merge. *)
Definition merge_config (default : option (gmap string pyval))
    (override : config) : config :=
  match override with
  | CfgDict o =>
    match default with
    | Some d => CfgDict (o ∪ d)
    | None => CfgDict o
    end
  | CfgList l => CfgTuple l
  | CfgNone => CfgNone
  | CfgInt z => CfgInt z
  | CfgStr s => CfgStr s
  | CfgTuple l => CfgTuple l
  end.

(** [d.get(k)] on the items of a dictionary. *)
Fixpoint assoc {A} (k : string) (d : list (string * A)) : option A :=
  match d with
  | [] => None
  | (k', v) :: r => if String.eqb k k' then Some v else assoc k r
  end.

(** Modelled from the spec: the raw value that a plugin constructed from a
    run object extracts, at the selector matching its own name (the bare
    name, as in [test_init], or the qualified name, as in [test_cleanup]);
    [Context.__init__] is not among the sources. *)
Definition own_raw (p : plugin) (ctx : run) : option config :=
  match assoc (p_name p) (run_config ctx) with
  | Some v => Some v
  | None => assoc (fullname p) (run_config ctx)
  end.

(** Modelled from the spec: the context plugin constructor
    ([Context.__init__], not among the sources): it stores the merged
    configuration and the task reference of the run.  The spec does not say
    what a run without the plugin's selector gives; the constructor is
    defined where the selector is present. *)
Definition context_init (p : plugin) (ctx : run) : option instance :=
  match own_raw p ctx with
  | Some raw =>
    Some {| c_plugin := p;
            c_config := merge_config (p_default_config p) raw;
            c_task := run_task ctx |}
  | None => None
  end.

(** What a run of the manager does, as seen from outside. *)
Inductive event : Type :=
| SetupCalled (i : instance)
| CleanupCalled (i : instance)
| Logged (msg : string).

Definition cleanup_failed_msg (i : instance) : string :=
  "Context " +:+ fullname (c_plugin i) +:+ ".cleanup() failed.".

(** Modelled from the spec: the stable ascending sort by declared order of
    [ContextManager._get_sorted_context_lst] (rally/task/context.py, not
    among the sources): instances of equal order keep the order in which
    their selectors were resolved. *)
Fixpoint insert_by_order (x : instance) (l : list instance) : list instance :=
  match l with
  | [] => [x]
  | y :: r =>
    if Z.leb (p_order (c_plugin x)) (p_order (c_plugin y)) then x :: y :: r
    else y :: insert_by_order x r
  end.

Fixpoint sort_by_order (l : list instance) : list instance :=
  match l with
  | [] => []
  | x :: r => insert_by_order x (sort_by_order r)
  end.

(** The calls of [setup()] and of [cleanup()] in a trace. *)
Definition setup_calls (evs : list event) : list instance :=
  omap (fun e => match e with SetupCalled i => Some i | _ => None end) evs.

Definition cleanup_calls (evs : list event) : list instance :=
  omap (fun e => match e with CleanupCalled i => Some i | _ => None end) evs.

Section Manager.

(** The plugin registry is a collaborator of the manager: its lookup by
    name and optional platform is a parameter. *)
Variable lookup : string -> option string -> option plugin.

(** Modelled from the spec: the resolution of one selector by
    [ContextManager._get_sorted_context_lst] (not among the sources): the
    selector is split, the plugin looked up, and the instance built from the
    raw value under the selector; an unregistered plugin is
    [PluginNotFound]. *)
Definition resolve_one (ctx : run) (entry : string * config)
  : result instance :=
  let (name, platform) := split_selector (fst entry) in
  match lookup name platform with
  | Some p =>
    Ok {| c_plugin := p;
          c_config := merge_config (p_default_config p) (snd entry);
          c_task := run_task ctx |}
  | None => Raise (PluginNotFound (fst entry))
  end.

Fixpoint resolve_all (ctx : run) (entries : list (string * config))
  : result (list instance) :=
  match entries with
  | [] => Ok []
  | e :: r =>
    let* i := resolve_one ctx e in
    let* l := resolve_all ctx r in
    Ok (i :: l)
  end.

(** Modelled from the spec: [ContextManager._get_sorted_context_lst] (not
    among the sources): every selector is resolved, then the instances are
    sorted by ascending order. *)
Definition _get_sorted_context_lst (ctx : run) : result (list instance) :=
  let* l := resolve_all ctx (run_config ctx) in
  Ok (sort_by_order l).

(** The manager: its run object and the instances that [setup()] kept. *)
Record manager : Type := Manager {
  m_context_obj : run;
  m_stored : option (list instance)
}.

Definition ContextManager (ctx : run) : manager :=
  {| m_context_obj := ctx; m_stored := None |}.

(** Modelled from the spec: the loop of [ContextManager.setup()] (not among
    the sources): [setup()] is called on each instance in turn and the
    first failure propagates at once. *)
Fixpoint setup_loop (l : list instance) : list event * result unit :=
  match l with
  | [] => ([], Ok tt)
  | i :: r =>
    match p_setup (c_plugin i) with
    | Ok _ => let (evs, res) := setup_loop r in (SetupCalled i :: evs, res)
    | Raise e => ([SetupCalled i], Raise e)
    end
  end.

(** Modelled from the spec: [ContextManager.setup()] (not among the
    sources): it resolves and sorts the instances and calls [setup()] on
    them in ascending order; the instances on which [setup()] was called,
    the one that failed among them, are kept for the later cleanup, which
    is for every previously set up instance; it returns the run object
    unchanged, or the failure of a [setup()]. *)
Definition setup (m : manager) : manager * list event * result run :=
  match _get_sorted_context_lst (m_context_obj m) with
  | Raise e => (m, [], Raise e)
  | Ok l =>
    let (evs, res) := setup_loop l in
    let m' := {| m_context_obj := m_context_obj m;
                 m_stored := Some (setup_calls evs) |} in
    match res with
    | Ok _ => (m', evs, Ok (m_context_obj m))
    | Raise e => (m', evs, Raise e)
    end
  end.

(** Modelled from the spec: the loop of [ContextManager.cleanup()] (not
    among the sources): a failure of one [cleanup()] is caught and logged
    with the qualified name of the plugin, and the loop goes on. *)
Fixpoint cleanup_loop (l : list instance) : list event :=
  match l with
  | [] => []
  | i :: r =>
    match p_cleanup (c_plugin i) with
    | Ok _ => CleanupCalled i :: cleanup_loop r
    | Raise _ =>
      CleanupCalled i :: Logged (cleanup_failed_msg i) :: cleanup_loop r
    end
  end.

(** Modelled from the spec: [ContextManager.cleanup()] (not among the
    sources): the instances that [setup()] kept are cleaned up in the
    reverse of the setup order.  A manager on which [setup()] was not run
    resolves the list itself, as [test_cleanup] has it. *)
Definition cleanup (m : manager) : list event * result unit :=
  let lst :=
    match m_stored m with
    | Some l => Ok l
    | None => _get_sorted_context_lst (m_context_obj m)
    end in
  match lst with
  | Ok l => (cleanup_loop (reverse l), Ok tt)
  | Raise e => ([], Raise e)
  end.

End Manager.

(** Modelled from the spec: the lookup of the plugin registry (the plugin
    base classes are not among the sources): plugins are keyed by name and
    platform, and a lookup without a platform means the default one. *)
Definition registry_lookup (registry : list plugin) (name : string)
    (platform : option string) : option plugin :=
  let platform := default default_platform platform in
  find (fun p => String.eqb (p_name p) name &&
                 String.eqb (p_platform p) platform) registry.


(** *** Sample data *)

(** The plugins of [test_cleanup], the first with the failing [cleanup()] of
    [test_cleanup_exception]. *)
Definition plugin_a : plugin :=
  {| p_name := "a"; p_platform := "foo"; p_order := 1;
     p_default_config := None;
     p_setup := Ok tt; p_cleanup := Raise (PluginFailure "So Sad") |}.

Definition plugin_b : plugin :=
  {| p_name := "b"; p_platform := "foo"; p_order := 2;
     p_default_config := None;
     p_setup := Ok tt; p_cleanup := Ok tt |}.

Definition sample_registry : list plugin := [plugin_a; plugin_b].

Definition sample_run : run :=
  {| run_config := [("a@foo", CfgList []); ("b@foo", CfgList [])];
     run_task := "task" |}.

Definition instance_a : instance :=
  {| c_plugin := plugin_a; c_config := CfgTuple []; c_task := "task" |}.

Definition instance_b : instance :=
  {| c_plugin := plugin_b; c_config := CfgTuple []; c_task := "task" |}.

(** The same plugins, the first with a [setup()] that fails. *)
Definition plugin_a_down : plugin :=
  {| p_name := "a"; p_platform := "foo"; p_order := 1;
     p_default_config := None;
     p_setup := Raise (PluginFailure "no quota"); p_cleanup := Ok tt |}.

Definition down_registry : list plugin := [plugin_a_down; plugin_b].

Definition instance_a_down : instance :=
  {| c_plugin := plugin_a_down; c_config := CfgTuple []; c_task := "task" |}.


(** A run whose selector names a platform without plugins. *)
Definition unknown_run : run :=
  {| run_config := [("a@foo", CfgList []); ("foo@bar", CfgStr "x")];
     run_task := "task" |}.

(** The plugin and the run of [test_init_with_default_config]. *)
Definition plugin_foo : plugin :=
  {| p_name := "foo"; p_platform := default_platform; p_order := 1;
     p_default_config :=
       Some (<["alpha" := PStr "beta"]> {["delta" := PStr "gamma"]});
     p_setup := Ok tt; p_cleanup := Ok tt |}.

Definition foo_run : run :=
  {| run_config := [("foo", CfgDict {["ab" := PStr "cd"]}); ("bar", CfgInt 42)];
     run_task := "foo_task" |}.

End Context.

(** ** More on the flattening pass *)

Module MonascaLinks.
Import Monasca.

(** The parent references of the records [recs] emitted for [nodes] by a
    call on [acts] below [p]: a record either refers to [p] and belongs to a
    node of [acts], or refers to the identifier of an earlier record, of
    which its node is a child. *)
Definition links (p : option parent_ref) (acts nodes : list action)
    (recs : list (report * act_id)) : Prop :=
  forall j r a,
    recs !! j = Some r -> nodes !! j = Some a ->
    (r_parent (fst r) = fst <$> p /\ a ∈ acts) \/
    (exists i r' a',
       (i < j)%nat /\ recs !! i = Some r' /\ nodes !! i = Some a' /\
       r_parent (fst r) = Some (snd r') /\ a ∈ a_children a').

(** An action named like the key of the list of metrics, below an action
    that is not. *)
Definition shadowing : iteration :=
  {| i_id := "it-4";
     i_atomic_actions :=
       [Action "boot" 0 4 false [Action "metrics" 1 2 false []]];
     i_error := PNone;
     i_timestamp := 0; i_duration := 4; i_idle_duration := 0 |}.

(** A failed iteration whose last action went well. *)
Definition late_failure : iteration :=
  {| i_id := "it-5";
     i_atomic_actions :=
       [Action "boot" 0 4 true []; Action "ping" 4 5 false []];
     i_error := boom;
     i_timestamp := 0; i_duration := 5; i_idle_duration := 1 |}.

End MonascaLinks.

(** ** The workload metrics of the Monasca exporter *)

Module WorkloadMetrics.

(** [d[k]] on any dictionary. *)
Definition item {A} (d : gmap string A) (k : string) : result A :=
  match d !! k with
  | Some v => Ok v
  | None => Raise (KeyError k)
  end.

(** A metric: [{"name": ..., "value": ..., "dimensions": ...,
    "value_meta": ...}]. *)
Record metric : Type := Metric {
  m_name : string;
  m_value : pyval;
  m_dimensions : gmap string pyval;
  m_value_meta : gmap string pyval
}.

Definition dimension_keys : list string :=
  ["task_uuid"; "subtask_uuid"; "deployment_uuid"; "deployment_name"].

Definition meta_keys : list string := ["scenario_cfg"].

(** [{key: report[key] for key in keys}], the keys taken in turn. *)
Fixpoint pick_into (report : gmap string pyval) (keys : list string)
    (acc : gmap string pyval) : result (gmap string pyval) :=
  match keys with
  | [] => Ok acc
  | key :: rest =>
    let* v := item report key in
    pick_into report rest (<[key := v]> acc)
  end.

Section Metrics.

(** The [%s] conversion of a value, Python's [str()]. *)
Variable str_of : pyval -> string.

(** ["rally_%(task)s_%(metric)s" % {"task": task, "metric": metric}] *)
Definition metric_name (task : pyval) (metric : string) : string :=
  "rally_" +:+ str_of task +:+ "_" +:+ metric.

(** [MonascaExporter.create_workload_metrics]: [context] is the dictionary
    with the subtask, [report] the workload report. *)
Definition create_workload_metrics
    (context : gmap string (gmap string pyval))
    (report : gmap string pyval) : result (list metric) :=
  let metrics : list metric := [] in
  let* subtask := item context "subtask" in
  let* title := item subtask "title" in
  let* dimensions := pick_into report dimension_keys ∅ in
  let* meta := pick_into report meta_keys ∅ in
  let* load_duration := item report "load_duration" in
  let metric :=
    {| m_name := metric_name title "load_duration";
       m_value := load_duration;
       m_dimensions := dimensions;
       m_value_meta := meta |} in
  let metrics := metrics ++ [metric] in
  let* success_rate := item report "success_rate" in
  let metric :=
    {| m_name := metric_name title "success_rate";
       m_value := success_rate;
       m_dimensions := dimensions;
       m_value_meta := meta |} in
  let metrics := metrics ++ [metric] in
  Ok metrics.

End Metrics.

(** The keys of the report that the metrics read, in the order in which
    they are read. *)
Definition required_keys : list string :=
  dimension_keys ++ meta_keys ++ ["load_duration"; "success_rate"].

(** *** Sample data *)

Definition sample_context : gmap string (gmap string pyval) :=
  {["subtask" := {["title" := PStr "boot"]}]}.

(** A workload report without its success rate. *)
Definition partial_report : gmap string pyval :=
  <["task_uuid" := PStr "t-1"]>
    (<["subtask_uuid" := PStr "s-1"]>
       (<["deployment_uuid" := PStr "d-1"]>
          (<["deployment_name" := PStr "devstack"]>
             (<["scenario_cfg" := PList []]>
                {["load_duration" := PInt 12]})))).

Definition full_report : gmap string pyval :=
  <["success_rate" := PInt 1]> (<["description" := PStr "x"]> partial_report).

Definition plain_str (v : pyval) : string :=
  match v with
  | PStr s => s
  | _ => "?"
  end.

End WorkloadMetrics.

(** ** The testr context and launcher *)

Module TestrRun.
Import Testr.

(** *** [TEST_NAME_RE] and [TestrLauncher.list_tests] *)

Definition newline : ascii := "010"%char.

(** [a-zA-Z0-9] *)
Definition is_alnum (c : ascii) : bool :=
  let n := nat_of_ascii c in
  ((48 <=? n) && (n <=? 57) || (65 <=? n) && (n <=? 90) ||
   (97 <=? n) && (n <=? 122))%nat.

(** The class [[a-zA-Z_.0-9]]. *)
Definition name_char (c : ascii) : bool :=
  is_alnum c || Ascii.eqb c "_" || Ascii.eqb c ".".

(** The class [[a-zA-Z-_,=0-9]]: after the range [A-Z] the hyphen is a
    literal. *)
Definition tag_char (c : ascii) : bool :=
  is_alnum c || Ascii.eqb c "-" || Ascii.eqb c "_" || Ascii.eqb c "," ||
  Ascii.eqb c "=".

(** What is left of a string after its longest prefix of [p] characters. *)
Fixpoint skip_while (p : ascii -> bool) (s : string) : string :=
  match s with
  | EmptyString => EmptyString
  | String c r => if p c then skip_while p r else s
  end.

(** [$]: the end of the string, or the newline that ends it. *)
Definition at_end (s : string) : bool :=
  match s with
  | EmptyString => true
  | String c EmptyString => Ascii.eqb c newline
  | _ => false
  end.

(** [TEST_NAME_RE.match(s)] is not [None], for
    [^[a-zA-Z_.0-9]+(\[[a-zA-Z-_,=0-9]*\])?$].  No character of the first
    class opens a bracket or ends a line, and none of the second closes a
    bracket, so the longest runs decide the match. *)
Definition TEST_NAME_RE_match (s : string) : bool :=
  match s with
  | EmptyString => false
  | String c _ =>
    name_char c &&
    (let rest := skip_while name_char s in
     at_end rest ||
     match rest with
     | String b r =>
       Ascii.eqb b "[" &&
       match skip_while tag_char r with
       | String e r' => Ascii.eqb e "]" && at_end r'
       | EmptyString => false
       end
     | EmptyString => false
     end)
  end.

(** [s.split("\n")] *)
Fixpoint split_lines (s : string) : list string :=
  match s with
  | EmptyString => [EmptyString]
  | String c r =>
    if Ascii.eqb c newline then EmptyString :: split_lines r
    else match split_lines r with
         | h :: t => String c h :: t
         | [] => [String c EmptyString]
         end
  end.

(** The string has no newline. *)
Fixpoint newline_free (s : string) : bool :=
  match s with
  | EmptyString => true
  | String c r => negb (Ascii.eqb c newline) && newline_free r
  end.

(** ["\n".join(l)] *)
Definition join_lines (l : list string) : string :=
  String.concat (String newline EmptyString) l.

Section ListTests.

(** [utils.check_output(cmd, ...)]: the output of the command. *)
Variable check_output : list string -> string.

(** [TestrLauncher.list_tests] *)
Definition list_tests (_use_testr : bool) (pattern : string) : list string :=
  let cmd :=
    if _use_testr then ["testr"; "list-tests"; pattern]
    else ["stestr"; "list"; pattern] in
  let output := check_output cmd in
  filter (fun t => TEST_NAME_RE_match t = true) (split_lines output).

End ListTests.

(** *** [TestrContext.setup] and [TestrContext.cleanup] *)

Section Setup.

Context {Pattern Reason : Type}.
Variable re_compile : string -> option Pattern.
Variable re_search : Pattern -> string -> bool.

(** The keys of [run_args] that [setup] reads; [None] is a key that is not
    there.  [ra_failed] is the truth value of [run_args.get("failed")]. *)
Record run_args : Type := RunArgs {
  ra_concurrency : option Z;
  ra_load_list : option (list string);
  ra_skip_list : option (list (string * Reason));
  ra_failed : bool;
  ra_pattern : option string
}.

(** [{}] *)
Definition no_run_args : run_args :=
  {| ra_concurrency := None; ra_load_list := None; ra_skip_list := None;
     ra_failed := false; ra_pattern := None |}.

(** The value of [load_list] as [setup] goes on: [None], a list, or the set
    that is left once the skipped tests are taken out. *)
Inductive tests : Type :=
| NoTests
| Listed (l : list string)
| Remaining (s : gset string).

Definition tests_truthy (t : tests) : bool :=
  match t with
  | NoTests => false
  | Listed l => match l with [] => false | _ => true end
  | Remaining s => negb (bool_decide (s = ∅))
  end.

(** What is written to the load list file: the lines of a list joined in
    order, or the elements of a set joined in the order of its iteration,
    which the language leaves open. *)
Inductive content : Type :=
| Joined (text : string)
| JoinedInAnyOrder (s : gset string).

Definition join_tests (t : tests) : content :=
  match t with
  | NoTests => Joined EmptyString
  | Listed l => Joined (join_lines l)
  | Remaining s => JoinedInAnyOrder s
  end.

(** What [setup] leaves behind. *)
Record setup_state : Type := SetupState {
  testr_cmd : list string;            (* self.context["testr_cmd"] *)
  new_skip_list : option (gmap string Reason);
                                      (* run_args["skip_list"], if replaced *)
  load_list : tests;                  (* the local load_list at its last test *)
  written : option (string * content);  (* the file written *)
  _tmp_files : list string            (* self._tmp_files *)
}.

(** The manager: [_use_testr] (true when the attribute is missing),
    [prepare_run_args] and the tests that [list_tests()] returns; and the
    path that [common_utils.generate_random_path()] returns. *)
Variable use_testr : bool.
Variable prepare_run_args : run_args -> run_args.
Variable manager_list_tests : list string.
Variable generate_random_path : string.

(** [TestrContext.setup]: [context_run_args] is [self.context["run_args"]]
    when the key is there, [tmp_files] is [self._tmp_files] on entry. *)
Definition setup (context_run_args : option run_args)
    (tmp_files : list string) : setup_state :=
  let base_cmd := if use_testr then "testr" else "stestr" in
  let cmd := [base_cmd; "run"; "--subunit"] in
  let run_args := prepare_run_args (default no_run_args context_run_args) in
  let concurrency := default 0 (ra_concurrency run_args) in
  let cmd :=
    if Z.eqb concurrency 0 || Z.ltb 1 concurrency then
      if use_testr then cmd ++ ["--parallel"] else cmd
    else cmd in
  let cmd :=
    if Z.leb 1 concurrency then
      if Z.eqb concurrency 1 && negb use_testr then cmd ++ ["--serial"]
      else cmd ++ ["--concurrency"; pretty concurrency]
    else cmd in
  let load_list :=
    match ra_load_list run_args with
    | Some l => Listed l
    | None => NoTests
    end in
  let skip_list := ra_skip_list run_args in
  let '(load_list, new_skip) :=
    match skip_list with
    | Some (item :: items) =>
      let load_list :=
        match load_list with
        | Listed (t :: l) => t :: l
        | _ => manager_list_tests
        end in
      let skip_list :=
        _expand_skip_list re_compile re_search load_list
                          (Some (item :: items)) in
      (Remaining (list_to_set load_list ∖ dom skip_list), Some skip_list)
    | _ => (load_list, None)
    end in
  let '(cmd, file, tmp_files) :=
    if tests_truthy load_list then
      let load_list_file := generate_random_path in
      (cmd ++ ["--load-list"; load_list_file],
       Some (load_list_file, join_tests load_list),
       tmp_files ++ [load_list_file])
    else (cmd, None, tmp_files) in
  let cmd := if ra_failed run_args then cmd ++ ["--failing"] else cmd in
  let cmd :=
    match ra_pattern run_args with
    | Some (String c p) => cmd ++ [String c p]
    | _ => cmd
    end in
  {| testr_cmd := cmd; new_skip_list := new_skip; load_list := load_list;
     written := file; _tmp_files := tmp_files |}.

(** [TestrContext.cleanup]: the file system is the set of the paths that
    exist; [os.remove] takes a path out. *)
Definition cleanup (tmp_files : list string) (fs : gset string)
  : gset string :=
  foldl (fun fs f => if bool_decide (f ∈ fs) then fs ∖ {[f]} else fs)
        fs tmp_files.

End Setup.

(** The concurrency arguments by runner and value of [concurrency]. *)
Definition concurrency_args (use_testr : bool) (concurrency : Z)
  : list string :=
  if Z.leb concurrency (-1) then []
  else if Z.eqb concurrency 0 then
    if use_testr then ["--parallel"] else []
  else if Z.eqb concurrency 1 then
    if use_testr then ["--concurrency"; "1"] else ["--serial"]
  else
    if use_testr then ["--parallel"; "--concurrency"; pretty concurrency]
    else ["--concurrency"; pretty concurrency].

(** *** Sample data *)

(** Run arguments with a load list alone. *)
Definition one_test : run_args (Reason := string) :=
  {| ra_concurrency := None;
     ra_load_list := Some ["tempest.api.a"];
     ra_skip_list := None;
     ra_failed := false;
     ra_pattern := None |}.

(** The output of a listing command. *)
Definition sample_listing (cmd : list string) : string :=
  "tempest.api.a" +:+ String newline
    ("tempest.api.b[id-1,smoke]" +:+ String newline EmptyString).

Definition sample_run_args : run_args (Reason := string) :=
  {| ra_concurrency := Some 4;
     ra_load_list := Some sample_load_list;
     ra_skip_list := Some sample_regexps;
     ra_failed := false;
     ra_pattern := Some "scenario" |}.

(** A skip list that takes every test of the load list out. *)
Definition skip_everything : run_args (Reason := string) :=
  {| ra_concurrency := None;
     ra_load_list := Some sample_load_list;
     ra_skip_list := Some [("tempest", "all of it")];
     ra_failed := false;
     ra_pattern := None |}.

End TestrRun.

(** ** The multihost engine *)

Module Multihost.

(** A value of a node configuration: a string, a dictionary given by its
    items in iteration order, a list, or a value of another type ([None], a
    boolean or an integer here), which the update leaves alone. *)
Inductive value : Type :=
| VStr (s : string)
| VDict (d : list (string * value))
| VList (l : list value)
| VNone
| VBool (b : bool)
| VNum (z : Z).

(** Induction on values, with the values under a dictionary or in a list
    as smaller ones. *)
Section ValueInd.

Variable P : value -> Prop.
Hypothesis on_str : forall s, P (VStr s).
Hypothesis on_dict : forall d, Forall (fun kv => P (snd kv)) d -> P (VDict d).
Hypothesis on_list : forall l, Forall P l -> P (VList l).
Hypothesis on_none : P VNone.
Hypothesis on_bool : forall b, P (VBool b).
Hypothesis on_num : forall z, P (VNum z).

Fixpoint value_nested_ind (v : value) : P v :=
  match v with
  | VStr s => on_str s
  | VDict d =>
    on_dict d
      ((fix items (d : list (string * value))
          : Forall (fun kv => P (snd kv)) d :=
          match d with
          | [] => @List.Forall_nil _ _
          | kv :: r => @List.Forall_cons _ _ kv r (value_nested_ind (snd kv)) (items r)
          end) d)
  | VList l =>
    on_list l
      ((fix elems (l : list value) : Forall P l :=
          match l with
          | [] => @List.Forall_nil _ _
          | x :: r => @List.Forall_cons _ _ x r (value_nested_ind x) (elems r)
          end) l)
  | VNone => on_none
  | VBool b => on_bool b
  | VNum z => on_num z
  end.

End ValueInd.

(** How a call ends: the object updated in place, an exception of
    [str.format], or the unbound local [keyval]. *)
Inductive outcome (E A : Type) : Type :=
| Updated (a : A)
| FormatRaised (e : E)
| UnboundLocalError.

Arguments Updated {E A} a.
Arguments FormatRaised {E A} e.
Arguments UnboundLocalError {E A}.

Section Update.

(** [value.format(controller_ip=self.controller_ip)]: the formatted string,
    or the exception that [str.format] raises. *)
Context {E : Type}.
Variable format : string -> E + string.

(** One pass through the loop for the value [x] under a key or an index:
    the new value there.  [rec] is the call on a dictionary or a list. *)
Definition update_entry (rec : value -> outcome E value) (x : value)
  : outcome E value :=
  match x with
  | VStr s =>
    match format s with
    | inr s' => Updated (VStr s')
    | inl e => FormatRaised e
    end
  | VDict _ | VList _ => rec x
  | _ => Updated x
  end.

(** [for key, value in obj.iteritems(): ...] *)
Definition update_items (rec : value -> outcome E value)
  : list (string * value) -> outcome E (list (string * value)) :=
  fix go (d : list (string * value)) :=
    match d with
    | [] => Updated []
    | (k, x) :: r =>
      match update_entry rec x with
      | Updated x' =>
        match go r with
        | Updated r' => Updated ((k, x') :: r')
        | FormatRaised e => FormatRaised e
        | UnboundLocalError => UnboundLocalError
        end
      | FormatRaised e => FormatRaised e
      | UnboundLocalError => UnboundLocalError
      end
    end.

(** [for key, value in enumerate(obj): ...] *)
Definition update_elems (rec : value -> outcome E value)
  : list value -> outcome E (list value) :=
  fix go (l : list value) :=
    match l with
    | [] => Updated []
    | x :: r =>
      match update_entry rec x with
      | Updated x' =>
        match go r with
        | Updated r' => Updated (x' :: r')
        | FormatRaised e => FormatRaised e
        | UnboundLocalError => UnboundLocalError
        end
      | FormatRaised e => FormatRaised e
      | UnboundLocalError => UnboundLocalError
      end
    end.

(** [MultihostEngine._update_controller_ip]: the state of [obj] when the
    call returns.  An object that is neither a dictionary nor a list leaves
    [keyval] unbound. *)
Fixpoint _update_controller_ip (obj : value) : outcome E value :=
  match obj with
  | VDict d =>
    match update_items _update_controller_ip d with
    | Updated d' => Updated (VDict d')
    | FormatRaised e => FormatRaised e
    | UnboundLocalError => UnboundLocalError
    end
  | VList l =>
    match update_elems _update_controller_ip l with
    | Updated l' => Updated (VList l')
    | FormatRaised e => FormatRaised e
    | UnboundLocalError => UnboundLocalError
    end
  | _ => UnboundLocalError
  end.

End Update.

(** The strings under a value, in the order in which the update reaches
    them. *)
Fixpoint strings (v : value) : list string :=
  match v with
  | VStr s => [s]
  | VDict d => flat_map (fun kv => strings (snd kv)) d
  | VList l => flat_map strings l
  | _ => []
  end.

(** A value with its strings blanked: its keys, its nesting and its other
    values. *)
Fixpoint shape (v : value) : value :=
  match v with
  | VStr _ => VStr EmptyString
  | VDict d => VDict (map (fun kv => (fst kv, shape (snd kv))) d)
  | VList l => VList (map shape l)
  | other => other
  end.

(** [obj] is a dictionary or a list. *)
Definition is_container (v : value) : bool :=
  match v with
  | VDict _ | VList _ => true
  | _ => false
  end.

Section UpdateSpec.

Context {E : Type}.
Variable format : string -> E + string.

(** [str.format] returns on [s]. *)
Definition formats (s : string) : Prop := exists s', format s = inr s'.

(** What one pass through the loop does with the value [x]: it returns
    when the strings under [x] can be formatted, and raises with the first
    one that can not. *)
Definition entry_ok (x : value) : Prop :=
  (Forall formats (strings x) ->
   exists x',
     update_entry format (_update_controller_ip format) x = Updated x' /\
     shape x' = shape x /\
     Forall2 (fun s s' => format s = inr s') (strings x) (strings x')) /\
  (forall before s after e,
     strings x = before ++ s :: after ->
     Forall formats before -> format s = inl e ->
     update_entry format (_update_controller_ip format) x = FormatRaised e).

End UpdateSpec.

(** *** Sample data *)

(** A stand-in for [str.format]: the placeholder ["{controller_ip}"] alone
    is replaced, a string with another brace is refused. *)
Definition sample_format (s : string) : string + string :=
  if String.eqb s "{controller_ip}" then inr "10.0.0.1"
  else if Testr.contains "{" s then inl s
  else inr s.

Definition sample_node : value :=
  VDict [("name", VStr "DevstackEngine");
         ("localrc", VDict [("HOST", VStr "{controller_ip}");
                            ("MULTI_HOST", VNum 1)]);
         ("services", VList [VStr "n-cpu"; VStr "{controller_ip}"])].

Definition bad_node : value :=
  VDict [("name", VStr "DevstackEngine");
         ("localrc", VDict [("HOST", VStr "{controller}")]);
         ("services", VList [VStr "{other}"])].

End Multihost.

(** * Properties *)

(** ** The flattening pass *)

Module MonascaFacts.
Import Monasca.

Lemma occ_nil k : occ [] k = 0.
Proof. reflexivity. Qed.

Lemma occ_app a b k : occ (a ++ b) k = occ a k + occ b k.
Proof. unfold occ. rewrite filter_app, length_app. lia. Qed.

Lemma occ_cons n a k :
  occ (n :: a) k = (if decide (n = k) then 1 else 0) + occ a k.
Proof.
  unfold occ. rewrite filter_cons. destruct (decide (n = k)); simpl; lia.
Qed.

Lemma nums_ext names : forall base base' seen seen',
  (forall k, k ∈ names -> base k + occ seen k = base' k + occ seen' k) ->
  nums base seen names = nums base' seen' names.
Proof.
  induction names as [|n r IH]; intros base base' seen seen' H; simpl; [done|].
  f_equal.
  - apply H. left.
  - apply IH. intros k Hk. rewrite !occ_app.
    specialize (H k (list_elem_of_further _ _ _ Hk)). lia.
Qed.

Lemma nums_app a : forall base seen b,
  nums base seen (a ++ b) = nums base seen a ++ nums base (seen ++ a) b.
Proof.
  induction a as [|n r IH]; intros base seen b; simpl.
  - by rewrite app_nil_r.
  - f_equal. rewrite IH. by rewrite <- app_assoc.
Qed.

Lemma nums_lookup names : forall base seen i z,
  nums base seen names !! i = Some z ->
  exists n, names !! i = Some n /\ z = base n + occ (seen ++ take i names) n.
Proof.
  induction names as [|n r IH]; intros base seen i z H; simpl in *; [done|].
  destruct i as [|i]; simpl in *.
  - inversion H; subst. exists n. by rewrite app_nil_r.
  - apply IH in H as (m & Hm & ->). exists m. split; [done|].
    by rewrite <- app_assoc.
Qed.

Lemma within_app n : forall l1 l2,
  within n (l1 ++ l2) = within n l1 ++ within n l2.
Proof. destruct n; intros l1 l2; simpl; [done|]. apply flat_map_app. Qed.

Lemma at_depth_app k : forall l1 l2,
  at_depth k (l1 ++ l2) = at_depth k l1 ++ at_depth k l2.
Proof. destruct k; intros l1 l2; simpl; [done|]. apply flat_map_app. Qed.

(** The children of the nodes of a list, in order. *)
Lemma at_depth_succ k : forall acts,
  at_depth (S k) acts = at_depth k (flat_map a_children acts).
Proof.
  intros acts. induction acts as [|a acts IH]; simpl.
  - by destruct k.
  - rewrite at_depth_app. f_equal. exact IH.
Qed.

Lemma within_succ_perm n : forall acts,
  within (S n) acts ≡ₚ acts ++ within n (flat_map a_children acts).
Proof.
  intros acts. induction acts as [|a acts IH].
  - simpl. by destruct n.
  - change (within (S n) (a :: acts))
      with (a :: within n (a_children a) ++ within (S n) acts).
    simpl flat_map. rewrite within_app, IH. simpl. f_equiv.
    rewrite !app_assoc. f_equiv. apply Permutation_app_comm.
Qed.

(** The nodes of a three-level pass are those at depths 0, 1 and 2. *)
Lemma within_3_depths acts :
  within 3 acts ≡ₚ at_depth 0 acts ++ at_depth 1 acts ++ at_depth 2 acts.
Proof.
  rewrite within_succ_perm, within_succ_perm, within_succ_perm.
  rewrite !at_depth_succ. simpl. by rewrite app_nil_r.
Qed.

Section Pass.

Context {Metric : Type}.
Variable mk : report -> act_id -> Metric.
Variable iso : Z -> string.
Variable itr : iteration.
Variable w : workload.
Variable wid : pyval.

Implicit Types c : gmap string (cval Metric).

(** The loop body, with the call on the children named. *)
Lemma visit_unfold a parent depth c :
  visit mk iso itr w wid a parent depth c =
  let* (n, d1) := take_num (setdefault0 c (a_name a)) (a_name a) in
  let id := {| itr_id := i_id itr; action_name := a_name a; num := n |} in
  let rep := node_report iso itr w wid a parent in
  let* d2 := append_metric d1 (mk rep id) in
  let* (_, d3) := process_state mk iso itr w wid (Some (a_children a))
                    (Some (id, rep)) (depth + 1) (Some d2) in
  Ok d3.
Proof. destruct a; reflexivity. Qed.

Lemma take_num_ok c name :
  name <> "metrics" -> counters_only c ->
  take_num (setdefault0 c name) name =
  Ok (cnt c name, <[name := CNum (cnt c name + 1)]> c).
Proof.
  intros Hn Hc. unfold take_num, setdefault0, getitem, cnt.
  destruct (Hc name Hn) as [E | [z E]]; rewrite E.
  - rewrite lookup_insert_eq. simpl. by rewrite insert_insert_eq.
  - rewrite E. done.
Qed.

Lemma post_refl c l0 :
  c !! "metrics" = Some (CList l0) -> counters_only c ->
  post mk iso itr w wid c l0 c [] [].
Proof.
  intros Hm Hc. repeat split; simpl; try done.
  - by rewrite app_nil_r.
  - intros. rewrite occ_nil. lia.
Qed.

Lemma post_trans c c1 c2 l0 recs1 recs2 nodes1 nodes2 :
  Forall (fun a => a_name a <> "metrics") nodes2 ->
  post mk iso itr w wid c l0 c1 recs1 nodes1 ->
  post mk iso itr w wid c1 (l0 ++ map (metric_of mk) recs1) c2 recs2 nodes2 ->
  post mk iso itr w wid c l0 c2 (recs1 ++ recs2) (nodes1 ++ nodes2).
Proof.
  intros Hn (M1 & O1 & C1 & F1 & N1) (M2 & O2 & C2 & F2 & N2).
  repeat split.
  - rewrite M2, map_app, app_assoc. done.
  - done.
  - intros k Hk. rewrite C2, C1 by done. rewrite map_app, occ_app. lia.
  - by apply Forall2_app.
  - rewrite !map_app, nums_app, N1, N2. f_equal. simpl.
    apply nums_ext. intros k Hk.
    apply list_elem_of_fmap in Hk as (a & -> & Ha).
    rewrite Forall_forall in Hn. rewrite C1 by (apply Hn; done).
    rewrite occ_nil. lia.
Qed.

Lemma post_node c l0 a parent :
  a_name a <> "metrics" ->
  c !! "metrics" = Some (CList l0) -> counters_only c ->
  let id := {| itr_id := i_id itr; action_name := a_name a;
               num := cnt c (a_name a) |} in
  let rep := node_report iso itr w wid a parent in
  post mk iso itr w wid c l0
    (<["metrics" := CList (l0 ++ [mk rep id])]>
       (<[a_name a := CNum (cnt c (a_name a) + 1)]> c))
    [(rep, id)] [a].
Proof.
  intros Hn Hm Hc id rep. repeat split; simpl.
  - by rewrite lookup_insert_eq.
  - intros k Hk. rewrite lookup_insert_ne by done.
    destruct (decide (a_name a = k)) as [->|Hne].
    + right. eexists. by rewrite lookup_insert_eq.
    + rewrite lookup_insert_ne by done. by apply Hc.
  - intros k Hk. unfold cnt at 1. rewrite lookup_insert_ne by done.
    rewrite occ_cons, occ_nil.
    destruct (decide (a_name a = k)) as [->|Hne].
    + rewrite lookup_insert_eq. lia.
    + rewrite lookup_insert_ne by done. unfold cnt. lia.
  - constructor; [|constructor]. repeat split; simpl; eauto.
  - rewrite occ_nil. f_equal. lia.
Qed.

(** A call on the list [acts] at [depth], entered with a cache that holds
    the metrics [l0], returns: it adds one record for each node of the
    [3 - depth] levels it reaches, in traversal order, and counts their
    names in the cache. *)
Lemma pass_ok n : forall acts parent depth c l0,
  Z.to_nat (3 - depth) = n ->
  c !! "metrics" = Some (CList l0) -> counters_only c ->
  Forall (fun a => a_name a <> "metrics") (within n acts) ->
  unattributed itr parent acts = false ->
  exists recs c',
    process_state mk iso itr w wid (Some acts) parent depth (Some c) =
      Ok (CList (l0 ++ map (metric_of mk) recs), c') /\
    post mk iso itr w wid c l0 c' recs (within n acts).
Proof.
  induction n as [|n IHn]; intros acts parent depth c l0 Hd Hm Hc Hn Hu.
  - exists [], c. split; [|by apply post_refl].
    unfold process_state, body.
    rewrite bool_decide_true by lia.
    unfold getitem. rewrite Hm. simpl. by rewrite app_nil_r.
  - assert (Hloop : forall acts c l0,
      c !! "metrics" = Some (CList l0) -> counters_only c ->
      Forall (fun a => a_name a <> "metrics") (within (S n) acts) ->
      exists recs c',
        for_each (fun a d => visit mk iso itr w wid a parent depth d) acts c
          = Ok c' /\
        post mk iso itr w wid c l0 c' recs (within (S n) acts)).
    { clear acts c l0 Hm Hc Hn Hu.
      induction acts as [|a acts IHa]; intros c l0 Hm Hc Hn.
      - exists [], c. split; [done|]. by apply post_refl.
      - simpl in Hn. apply Forall_cons in Hn as [Ha Hn].
        apply Forall_app in Hn as [Hch Hn].
        simpl for_each. rewrite visit_unfold.
        rewrite take_num_ok by done. simpl.
        unfold append_metric, getitem.
        rewrite lookup_insert_ne by done. rewrite Hm. simpl.
        pose proof (post_node c l0 a parent Ha Hm Hc) as Hp1. simpl in Hp1.
        set (id := {| itr_id := i_id itr; action_name := a_name a;
                      num := cnt c (a_name a) |}) in *.
        set (rep := node_report iso itr w wid a parent) in *.
        set (c2 := <["metrics" := _]> _) in *.
        destruct Hp1 as (M1 & O1 & C1 & F1 & N1).
        destruct (IHn (a_children a) (Some (id, rep)) (depth + 1) c2 _
                    ltac:(lia) M1 O1 Hch) as (recs & c3 & E3 & P3).
        { unfold unattributed. rewrite bool_decide_true by eauto.
          simpl. by rewrite andb_false_r. }
        rewrite E3.
        destruct (IHa c3 _ (proj1 P3) (proj1 (proj2 P3)) Hn)
          as (recs' & c4 & E4 & P4).
        fold (for_each (fun a d => visit mk iso itr w wid a parent depth d)).
        rewrite E4.
        exists (((rep, id) :: recs) ++ recs'), c4. split; [done|].
        simpl within.
        change (a :: within n (a_children a) ++
                flat_map (fun a => a :: within n (a_children a)) acts)
          with ((a :: within n (a_children a)) ++ within (S n) acts).
        eapply post_trans; [done| |].
        + change ((rep, id) :: recs) with ([(rep, id)] ++ recs).
          change (a :: within n (a_children a))
            with ([a] ++ within n (a_children a)).
          eapply post_trans; [done| |].
          * repeat split; eassumption.
          * exact P3.
        + rewrite <- app_assoc in P4. exact P4. }
    destruct (Hloop acts c l0 Hm Hc Hn) as (recs & c' & E & P).
    exists recs, c'. split; [|done].
    unfold process_state, body.
    rewrite bool_decide_false by lia.
    assert (size c <> 0%nat) as Hs.
    { intros Hz. apply map_size_empty_iff in Hz. subst.
      by rewrite lookup_empty in Hm. }
    rewrite bool_decide_false by done.
    unfold getitem at 1. rewrite Hm.
    assert ((if cval_truthy (CList l0) then CList l0 else CList [])
            = CList l0) as ->.
    { by destruct l0. }
    rewrite insert_id by done.
    rewrite E, Hu. unfold getitem. by rewrite (proj1 P).
Qed.

(** The same for the top-level call with the default [atomic_actions]. *)
Lemma top_level_ok c l0 :
  c !! "metrics" = Some (CList l0) -> counters_only c ->
  Forall (fun a => a_name a <> "metrics") (within 3 (i_atomic_actions itr)) ->
  unattributed itr None (i_atomic_actions itr) = false ->
  exists recs c',
    _process_atomic_actions mk iso itr w wid None None 0 (Some c) =
      Ok (CList (l0 ++ map (metric_of mk) recs)) /\
    post mk iso itr w wid c l0 c' recs (within 3 (i_atomic_actions itr)).
Proof.
  intros Hm Hc Hn Hu.
  destruct (pass_ok 3 (i_atomic_actions itr) None 0 c l0
              eq_refl Hm Hc Hn Hu) as (recs & c' & E & P).
  exists recs, c'. split; [|done].
  unfold _process_atomic_actions.
  change (process_state mk iso itr w wid None None 0 (Some c))
    with (process_state mk iso itr w wid (Some (i_atomic_actions itr))
            None 0 (Some c)).
  by rewrite E.
Qed.

End Pass.

(** *** What a pass returns *)

Lemma elem_of_within_top n a acts : a ∈ acts -> a ∈ within (S n) acts.
Proof.
  intros H. simpl. apply list_elem_of_In, in_flat_map.
  exists a. split; [by apply list_elem_of_In | by left].
Qed.

Lemma counters_only_primed {Metric} (l0 : list Metric) :
  counters_only ({["metrics" := CList l0]} : gmap string (cval Metric)).
Proof. intros k Hk. left. by apply lookup_singleton_ne. Qed.

Lemma emitted_names (iso : Z -> string) itr w wid nodes recs :
  Forall2 (emitted iso itr w wid) nodes recs ->
  map (fun r => action_name (snd r)) recs = map a_name nodes.
Proof.
  induction 1 as [|a r nodes recs (_ & _ & E) _ IH]; simpl; [done|].
  by rewrite E, IH.
Qed.

(** C1: for the iteration whose only atomic action is
    [{"name":"a","started_at":0,"finished_at":1,"failed":false,"children":[]}]
    and whose error is [None], the call with the default inner parameters
    ([_cache=None]) does not return a record: the fresh dictionary has no
    ["metrics"] key and the first read of it raises [KeyError]. *)
Theorem single_action_default_cache_raises :
  forall (Metric : Type) (mk : report -> act_id -> Metric) (iso : Z -> string)
         (w : workload) (wid : pyval) (id : string) (ts dur idle : Z),
    _process_atomic_actions mk iso
      (Iteration id [Action "a" 0 1 false []] PNone ts dur idle)
      w wid None None 0 None
    = Raise (KeyError "metrics").
Proof. reflexivity. Qed.

(** Entered with [{"metrics": []}] the same iteration gives the one record
    of the scenario, with [success = true] and [duration = 1]. *)
Lemma single_action_primed_cache :
  forall (Metric : Type) (mk : report -> act_id -> Metric) (iso : Z -> string)
         (w : workload) (wid : pyval) (id : string) (ts dur idle : Z),
    let itr := Iteration id [Action "a" 0 1 false []] PNone ts dur idle in
    let rep := node_report iso itr w wid (Action "a" 0 1 false []) None in
    _process_atomic_actions mk iso itr w wid None None 0
      (Some {["metrics" := CList []]})
    = Ok (CList [mk rep (ActId id "a" 0)]) /\
    r_success rep = true /\ r_duration rep = 1.
Proof. intros. repeat split. Qed.

(** C2: for the iteration without atomic actions, with the error
    [{"msg":"boom"}], timestamp 100, duration 5 and idle duration 0, the
    call with the default inner parameters raises [KeyError] on
    ["metrics"]; entered with a cache that holds a list of metrics it builds
    the synthetic report and then raises [AttributeError] on
    [cache.metrics].  No synthetic record is returned either way. *)
Theorem no_action_failure_raises :
  forall (Metric : Type) (mk : report -> act_id -> Metric) (iso : Z -> string)
         (w : workload) (wid : pyval) (id : string),
    let itr := Iteration id [] (PDict [("msg", PStr "boom")]) 100 5 0 in
    _process_atomic_actions mk iso itr w wid None None 0 None
      = Raise (KeyError "metrics") /\
    forall l0 : list Metric,
      _process_atomic_actions mk iso itr w wid None None 0
        (Some {["metrics" := CList l0]})
      = Raise (AttributeError "metrics").
Proof.
  intros. split; [reflexivity|]. intros l0.
  unfold _process_atomic_actions, process_state, body. simpl.
  destruct l0; reflexivity.
Qed.

(** C3, as worded, fails: a failed action inside a failed action gives two
    records that carry the error of the iteration. *)
Lemma error_on_two_records :
  ~ error_on_exactly_one_record
      (_process_atomic_actions pair_metric epoch_text nested_failure
         sample_workload (PStr "w-1") None None 0 (Some primed)).
Proof.
  intros (l & E & H). vm_compute in E. injection E as <-.
  vm_compute in H. discriminate.
Qed.

(** C3, amended: when the pass is entered with a cache that holds the list
    of metrics and the last top-level action of a failed iteration is marked
    failed, the pass returns, a record carries the error of the iteration
    exactly when its node is marked failed ([None] otherwise), and at least
    one record carries it. *)
Theorem error_carried_by_each_failed_node :
  forall (Metric : Type) (mk : report -> act_id -> Metric) (iso : Z -> string)
         (itr : iteration) (w : workload) (wid : pyval)
         (c : gmap string (cval Metric)) (l0 : list Metric) (final : action),
    c !! "metrics" = Some (CList l0) ->
    counters_only c ->
    Forall (fun a => a_name a <> "metrics") (within 3 (i_atomic_actions itr)) ->
    truthy (i_error itr) = true ->
    last_action (i_atomic_actions itr) = Some final ->
    a_failed final = true ->
    exists recs,
      _process_atomic_actions mk iso itr w wid None None 0 (Some c)
        = Ok (CList (l0 ++ map (metric_of mk) recs)) /\
      Forall2 (fun a r =>
                 r_error (fst r) = if a_failed a then i_error itr else PNone)
              (within 3 (i_atomic_actions itr)) recs /\
      Exists (fun r => r_error (fst r) = i_error itr) recs.
Proof.
  intros Metric mk iso itr w wid c l0 final Hm Hc Hn Ht Hl Hf.
  assert (unattributed itr None (i_atomic_actions itr) = false) as Hu.
  { unfold unattributed. rewrite Hl, Hf.
    destruct (i_atomic_actions itr); [done|].
    simpl. by rewrite !andb_false_r. }
  destruct (top_level_ok mk iso itr w wid c l0 Hm Hc Hn Hu)
    as (recs & c' & E & (_ & _ & _ & F & _)).
  exists recs. split; [done|]. split.
  - eapply Forall2_impl; [exact F|].
    intros a r ((p & ->) & _). reflexivity.
  - apply last_Some in Hl as (l' & Hl).
    assert (final ∈ within 3 (i_atomic_actions itr)) as Hin.
    { apply elem_of_within_top. rewrite Hl. set_solver. }
    apply list_elem_of_lookup in Hin as (i & Hi).
    destruct (Forall2_lookup_l _ _ _ _ _ F Hi) as (r & Hr & ((p & Er) & _)).
    apply Exists_exists. exists r. split.
    + by eapply list_elem_of_lookup_2.
    + rewrite Er. simpl. by rewrite Hf.
Qed.

Lemma error_carried_by_each_failed_node_witness :
  exists recs,
    _process_atomic_actions pair_metric epoch_text nested_failure
      sample_workload (PStr "w-1") None None 0 (Some primed)
      = Ok (CList ([] ++ map (metric_of pair_metric) recs)) /\
    Forall2 (fun a r =>
               r_error (fst r) =
               if a_failed a then i_error nested_failure else PNone)
            (within 3 (i_atomic_actions nested_failure)) recs /\
    Exists (fun r => r_error (fst r) = i_error nested_failure) recs.
Proof.
  apply (error_carried_by_each_failed_node _ pair_metric epoch_text
           nested_failure sample_workload (PStr "w-1") primed []
           (Action "boot" 0 4 true [Action "wait" 1 4 true []])).
  - reflexivity.
  - apply counters_only_primed.
  - repeat constructor; discriminate.
  - reflexivity.
  - reflexivity.
  - reflexivity.
Defined.

(** C4, as worded, fails: with two parents that each have one child named
    ["x"], a counter for each parent gives both children the index 0, and
    the pass gives the second one the index 1. *)
Lemma same_name_under_two_parents :
  ~ indices_restart_per_parent (i_atomic_actions two_parents)
      (_process_atomic_actions pair_metric epoch_text two_parents
         sample_workload (PStr "w-1") None None 0 (Some primed)).
Proof.
  intros (l & E & H). vm_compute in E. injection E as <-.
  vm_compute in H. discriminate.
Qed.

(** C4, amended: the occurrence index comes from a counter for each action
    name that the whole pass shares through the cache.  When the pass is
    entered with a cache that holds the list of metrics and reaches its
    return, the record of the [i]-th node visited has, as its index, the
    count its name had in the cache on entry (0 when none) plus the number
    of nodes of that name visited before it, under any parent. *)
Theorem occurrence_index_counts_whole_pass :
  forall (Metric : Type) (mk : report -> act_id -> Metric) (iso : Z -> string)
         (itr : iteration) (w : workload) (wid : pyval)
         (c : gmap string (cval Metric)) (l0 : list Metric),
    c !! "metrics" = Some (CList l0) ->
    counters_only c ->
    Forall (fun a => a_name a <> "metrics") (within 3 (i_atomic_actions itr)) ->
    unattributed itr None (i_atomic_actions itr) = false ->
    exists recs,
      _process_atomic_actions mk iso itr w wid None None 0 (Some c)
        = Ok (CList (l0 ++ map (metric_of mk) recs)) /\
      map (fun r => action_name (snd r)) recs
        = map a_name (within 3 (i_atomic_actions itr)) /\
      forall i r, recs !! i = Some r ->
        num (snd r) =
        cnt c (action_name (snd r)) +
        occ (take i (map a_name (within 3 (i_atomic_actions itr))))
            (action_name (snd r)).
Proof.
  intros Metric mk iso itr w wid c l0 Hm Hc Hn Hu.
  destruct (top_level_ok mk iso itr w wid c l0 Hm Hc Hn Hu)
    as (recs & c' & E & (_ & _ & _ & F & N)).
  exists recs. split; [done|].
  pose proof (emitted_names iso itr w wid _ _ F) as En.
  split; [done|]. intros i r Hr.
  assert (nums (cnt c) [] (map a_name (within 3 (i_atomic_actions itr))) !! i
          = Some (num (snd r))) as Hi.
  { rewrite <- N. by rewrite list_lookup_fmap, Hr. }
  apply nums_lookup in Hi as (n & Hn' & ->).
  assert (n = action_name (snd r)) as ->.
  { rewrite <- En, list_lookup_fmap, Hr in Hn'. simpl in Hn'. congruence. }
  reflexivity.
Qed.

Lemma occurrence_index_counts_whole_pass_witness :
  exists recs,
    _process_atomic_actions pair_metric epoch_text two_parents
      sample_workload (PStr "w-1") None None 0 (Some primed)
      = Ok (CList ([] ++ map (metric_of pair_metric) recs)) /\
    map (fun r => action_name (snd r)) recs
      = map a_name (within 3 (i_atomic_actions two_parents)) /\
    forall i r, recs !! i = Some r ->
      num (snd r) =
      cnt primed (action_name (snd r)) +
      occ (take i (map a_name (within 3 (i_atomic_actions two_parents))))
          (action_name (snd r)).
Proof.
  apply (occurrence_index_counts_whole_pass _ pair_metric epoch_text
           two_parents sample_workload (PStr "w-1") primed []).
  - reflexivity.
  - apply counters_only_primed.
  - repeat constructor; discriminate.
  - reflexivity.
Defined.

(** C5, as worded, fails: in the chain of four nested actions the node
    ["d"] is at depth 3, the top-level action being at depth 0, and the
    pass returns no record for it. *)
Lemma depth_three_node_dropped :
  ~ each_has_a_record (at_depth 3 (i_atomic_actions chain))
      (_process_atomic_actions pair_metric epoch_text chain
         sample_workload (PStr "w-1") None None 0 (Some primed)).
Proof.
  intros (l & E & H). vm_compute in E. injection E as <-.
  apply Forall_cons_1 in H as [H _].
  apply Exists_exists in H as (m & Hm & Hname).
  repeat (apply elem_of_cons in Hm as [-> | Hm]; [discriminate Hname|]).
  by apply elem_of_nil in Hm.
Qed.

(** C5, amended: the recursion stops on entry to the call whose [_depth] is
    3, the call on the top-level actions having [_depth] 0: a call at depth
    3 or more returns the accumulated list as it is and leaves the cache as
    it is, so the nodes it is given are not flattened.  When the pass is
    entered with a cache that holds the list of metrics, no action it
    reaches is named ["metrics"] and it reaches its return, it adds one
    record for each node at depths 0, 1 and 2, in traversal order, and none
    for a node at depth 3 or deeper. *)
Theorem records_stop_below_depth_three :
  forall (Metric : Type) (mk : report -> act_id -> Metric) (iso : Z -> string)
         (itr : iteration) (w : workload) (wid : pyval)
         (c : gmap string (cval Metric)) (l0 : list Metric),
    c !! "metrics" = Some (CList l0) ->
    counters_only c ->
    Forall (fun a => a_name a <> "metrics") (within 3 (i_atomic_actions itr)) ->
    unattributed itr None (i_atomic_actions itr) = false ->
    (forall acts parent depth (d : gmap string (cval Metric)) v,
       3 <= depth -> d !! "metrics" = Some v ->
       process_state mk iso itr w wid (Some acts) parent depth (Some d)
         = Ok (v, d)) /\
    exists recs,
      _process_atomic_actions mk iso itr w wid None None 0 (Some c)
        = Ok (CList (l0 ++ map (metric_of mk) recs)) /\
      Forall2 (emitted iso itr w wid) (within 3 (i_atomic_actions itr)) recs /\
      within 3 (i_atomic_actions itr) ≡ₚ
        at_depth 0 (i_atomic_actions itr) ++
        at_depth 1 (i_atomic_actions itr) ++
        at_depth 2 (i_atomic_actions itr).
Proof.
  intros Metric mk iso itr w wid c l0 Hm Hc Hn Hu. split.
  - intros acts parent depth d v Hd Hv.
    unfold process_state, body. rewrite bool_decide_true by done.
    unfold getitem. by rewrite Hv.
  - destruct (top_level_ok mk iso itr w wid c l0 Hm Hc Hn Hu)
      as (recs & c' & E & (_ & _ & _ & F & _)).
    exists recs. split; [done|]. split; [done|]. apply within_3_depths.
Qed.

Lemma records_stop_below_depth_three_witness :
  (forall acts parent depth (d : gmap string (cval (report * act_id))) v,
     3 <= depth -> d !! "metrics" = Some v ->
     process_state pair_metric epoch_text chain sample_workload (PStr "w-1")
       (Some acts) parent depth (Some d) = Ok (v, d)) /\
  exists recs,
    _process_atomic_actions pair_metric epoch_text chain
      sample_workload (PStr "w-1") None None 0 (Some primed)
      = Ok (CList ([] ++ map (metric_of pair_metric) recs)) /\
    Forall2 (emitted epoch_text chain sample_workload (PStr "w-1"))
            (within 3 (i_atomic_actions chain)) recs /\
    within 3 (i_atomic_actions chain) ≡ₚ
      at_depth 0 (i_atomic_actions chain) ++
      at_depth 1 (i_atomic_actions chain) ++
      at_depth 2 (i_atomic_actions chain).
Proof.
  apply (records_stop_below_depth_three _ pair_metric epoch_text
           chain sample_workload (PStr "w-1") primed []).
  - reflexivity.
  - apply counters_only_primed.
  - repeat constructor; discriminate.
  - reflexivity.
Defined.

(** On the chain of four nested actions the records are those of ["a"],
    ["b"] and ["c"], at depths 0, 1 and 2; ["d"], at depth 3, has none. *)
Example chain_records :
  match _process_atomic_actions pair_metric epoch_text chain
          sample_workload (PStr "w-1") None None 0 (Some primed) with
  | Ok (CList l) => map (fun m => r_action_name (fst m)) l
  | _ => []
  end = ["a"; "b"; "c"].
Proof. vm_compute. reflexivity. Qed.

End MonascaFacts.

(** ** The skip list *)

Module TestrFacts.
Import Testr.

Section SkipList.
Context {Pattern Reason : Type}.
Variable re_compile : string -> option Pattern.
Variable re_search : Pattern -> string -> bool.

Implicit Types res : gmap string Reason.

Lemma mark_tests_lookup p r load_list : forall res k v,
  mark_tests re_search p r load_list res !! k = Some v ->
  res !! k = Some v \/ (k ∈ load_list /\ re_search p k = true /\ v = r).
Proof.
  unfold mark_tests.
  induction load_list as [|t l IH]; intros res k v H; simpl in H; [by left|].
  apply IH in H as [H | (Hk & Hs & ->)].
  - destruct (re_search p t) eqn:Es; [|by left].
    destruct (decide (t = k)) as [->|Hne].
    + rewrite lookup_insert_eq in H. inversion H; subst.
      right. split; [left|done].
    + rewrite lookup_insert_ne in H by done. by left.
  - right. split; [by right|done].
Qed.

Lemma mark_tests_keeps p r load_list : forall res k,
  is_Some (res !! k) ->
  is_Some (mark_tests re_search p r load_list res !! k).
Proof.
  unfold mark_tests.
  induction load_list as [|t l IH]; intros res k H; simpl; [done|].
  apply IH. destruct (re_search p t); [|done].
  destruct (decide (t = k)) as [->|Hne].
  - rewrite lookup_insert_eq. eauto.
  - by rewrite lookup_insert_ne.
Qed.

Lemma mark_tests_other p r load_list : forall res k,
  k ∉ load_list ->
  mark_tests re_search p r load_list res !! k = res !! k.
Proof.
  unfold mark_tests.
  induction load_list as [|t l IH]; intros res k H; simpl; [done|].
  apply not_elem_of_cons in H as [Hne Hl].
  rewrite IH by done. destruct (re_search p t); [|done].
  by rewrite lookup_insert_ne.
Qed.

Lemma expand_skip_list_fold load_list (items : list (string * Reason)) :
  _expand_skip_list re_compile re_search load_list (Some items) =
  foldl (skip_step re_compile re_search load_list) ∅ items.
Proof. by destruct items. Qed.

(** Where an entry of the result comes from. *)
Lemma skip_fold_origin load_list (items : list (string * Reason)) :
  forall k v,
  foldl (skip_step re_compile re_search load_list) ∅ items !! k = Some v ->
  (k ∈ load_list /\
   exists regex pattern, (regex, v) ∈ items /\
     re_compile regex = Some pattern /\ re_search pattern k = true) \/
  ((k, v) ∈ items /\ re_compile k = None).
Proof.
  induction items as [|[regex reason] items IH] using rev_ind; intros k v H.
  - simpl in H. by rewrite lookup_empty in H.
  - rewrite foldl_snoc in H. unfold skip_step at 1 in H. simpl in H.
    assert (forall k v,
      foldl (skip_step re_compile re_search load_list) ∅ items !! k = Some v ->
      (k ∈ load_list /\
       exists regex0 pattern, (regex0, v) ∈ items ++ [(regex, reason)] /\
         re_compile regex0 = Some pattern /\ re_search pattern k = true) \/
      ((k, v) ∈ items ++ [(regex, reason)] /\ re_compile k = None)) as IH'.
    { intros k0 v0 H0. apply IH in H0 as [(Hk & r0 & p0 & Hi & Hc & Hs) | (Hi & Hc)].
      - left. split; [done|]. exists r0, p0. set_solver.
      - right. set_solver. }
    destruct (re_compile regex) as [pattern|] eqn:Ec.
    + apply mark_tests_lookup in H as [H | (Hk & Hs & ->)]; [by apply IH'|].
      left. split; [done|]. exists regex, pattern. set_solver.
    + destruct (decide (regex = k)) as [->|Hne].
      * rewrite lookup_insert_eq in H. inversion H; subst. right. set_solver.
      * rewrite lookup_insert_ne in H by done. by apply IH'.
Qed.

Lemma skip_fold_invalid_present load_list (items : list (string * Reason)) :
  forall regex reason,
  (regex, reason) ∈ items -> re_compile regex = None ->
  is_Some (foldl (skip_step re_compile re_search load_list) ∅ items !! regex).
Proof.
  induction items as [|[regex' reason'] items IH] using rev_ind;
    intros regex reason Hin Hc.
  - by apply elem_of_nil in Hin.
  - rewrite foldl_snoc. unfold skip_step at 1. simpl.
    apply elem_of_app in Hin as [Hin | Hin].
    + specialize (IH _ _ Hin Hc).
      destruct (re_compile regex') eqn:Ec.
      * by apply mark_tests_keeps.
      * destruct (decide (regex' = regex)) as [->|Hne].
        -- rewrite lookup_insert_eq. eauto.
        -- by rewrite lookup_insert_ne.
    + apply list_elem_of_singleton in Hin. inversion Hin; subst.
      rewrite Hc. rewrite lookup_insert_eq. eauto.
Qed.

Lemma skip_fold_invalid_reason load_list (items : list (string * Reason)) :
  forall regex reason,
  NoDup (map fst items) ->
  (regex, reason) ∈ items -> re_compile regex = None ->
  regex ∉ load_list ->
  foldl (skip_step re_compile re_search load_list) ∅ items !! regex
    = Some reason.
Proof.
  induction items as [|[regex' reason'] items IH] using rev_ind;
    intros regex reason Hnd Hin Hc Hl.
  - by apply elem_of_nil in Hin.
  - rewrite foldl_snoc. unfold skip_step at 1. simpl.
    rewrite map_app in Hnd. apply NoDup_app in Hnd as (Hnd & Hdisj & _).
    apply elem_of_app in Hin as [Hin | Hin].
    + assert (regex' <> regex) as Hne.
      { intros ->. apply (Hdisj regex).
        - apply list_elem_of_fmap. by exists (regex, reason).
        - simpl. left. }
      specialize (IH _ _ Hnd Hin Hc Hl).
      destruct (re_compile regex') eqn:Ec.
      * by rewrite mark_tests_other.
      * by rewrite lookup_insert_ne.
    + apply list_elem_of_singleton in Hin. inversion Hin; subst.
      rewrite Hc. by rewrite lookup_insert_eq.
Qed.

End SkipList.

(** C10: [_expand_skip_list] returns the empty mapping when [regexps] is
    [None] or empty.  Otherwise every entry of the result is either a test
    of [load_list] in which a pattern of [regexps] that compiles is found,
    with the reason of that pattern, or a pattern of [regexps] that does
    not compile, with its own reason; and every pattern that does not
    compile is a key of the result, with its own reason when it is not a
    test of [load_list] (the keys of a dictionary being distinct). *)
Theorem expand_skip_list_entries :
  forall (Pattern Reason : Type) (re_compile : string -> option Pattern)
         (re_search : Pattern -> string -> bool) (load_list : list string),
    _expand_skip_list (Reason:=Reason) re_compile re_search load_list None = ∅ /\
    _expand_skip_list (Reason:=Reason) re_compile re_search load_list (Some []) = ∅ /\
    forall items : list (string * Reason),
      let result := _expand_skip_list re_compile re_search load_list (Some items) in
      (forall k v, result !! k = Some v ->
         (k ∈ load_list /\
          exists regex pattern, (regex, v) ∈ items /\
            re_compile regex = Some pattern /\ re_search pattern k = true) \/
         ((k, v) ∈ items /\ re_compile k = None)) /\
      (forall regex reason,
         (regex, reason) ∈ items -> re_compile regex = None ->
         is_Some (result !! regex) /\
         (NoDup (map fst items) -> regex ∉ load_list ->
          result !! regex = Some reason)).
Proof.
  intros. split; [done|]. split; [done|]. intros items result.
  subst result. rewrite expand_skip_list_fold. split.
  - apply skip_fold_origin.
  - intros regex reason Hin Hc. split.
    + by eapply skip_fold_invalid_present.
    + intros Hnd Hl. by apply skip_fold_invalid_reason.
Qed.


Lemma expand_skip_list_entries_witness :
  _expand_skip_list literal_compile contains sample_load_list
    (Some sample_regexps) !! "x[id-1]" = Some "flaky".
Proof.
  destruct (expand_skip_list_entries string string literal_compile contains
              sample_load_list) as (_ & _ & H).
  destruct (H sample_regexps) as (_ & Hbad).
  destruct (Hbad "x[id-1]" "flaky") as (_ & Hreason).
  - compute_done.
  - reflexivity.
  - apply Hreason; compute_done.
Defined.

(** The tests matched by ["api"] are skipped as slow, the pattern that does
    not compile is kept as a test id. *)
Example sample_skip_list :
  _expand_skip_list literal_compile contains sample_load_list
    (Some sample_regexps)
  = <["tempest.api.a" := "slow"]>
      (<["tempest.api.b" := "slow"]> {["x[id-1]" := "flaky"]}).
Proof. vm_compute. reflexivity. Qed.

End TestrFacts.

(** ** Context plugins and the context manager *)

Module ContextFacts.
Import Context.



Lemma insert_by_order_perm x l : insert_by_order x l ≡ₚ x :: l.
Proof.
  induction l as [|y l IH]; simpl; [done|].
  destruct (Z.leb _ _); [done|]. rewrite IH. apply Permutation_swap.
Qed.

Lemma sort_by_order_perm l : sort_by_order l ≡ₚ l.
Proof.
  induction l as [|x l IH]; simpl; [done|].
  by rewrite insert_by_order_perm, IH.
Qed.






Section Manager.
Variable lookup : string -> option string -> option plugin.

Lemma resolve_one_raises ctx e :
  (exists i, resolve_one lookup ctx e = Ok i) \/
  (exists s, resolve_one lookup ctx e = Raise (PluginNotFound s)).
Proof.
  unfold resolve_one. destruct (split_selector (fst e)) as [n pf].
  destruct (lookup n pf); eauto.
Qed.

Lemma resolve_all_fails ctx entries sel raw name platform :
  (sel, raw) ∈ entries ->
  split_selector sel = (name, platform) ->
  lookup name platform = None ->
  exists s, resolve_all lookup ctx entries = Raise (PluginNotFound s).
Proof.
  intros Hin Hs Hl. induction entries as [|e entries IH].
  - by apply elem_of_nil in Hin.
  - simpl. apply elem_of_cons in Hin as [<- | Hin].
    + unfold resolve_one. simpl. rewrite Hs, Hl. eauto.
    + destruct (resolve_one_raises ctx e) as [[i ->] | [s ->]]; [|eauto].
      destruct (IH Hin) as [s ->]. eauto.
Qed.

End Manager.







(** C9: when a selector of the run names a plugin that the registry does
    not hold for its name and platform, [setup()] fails with
    [PluginNotFound] and no [setup()] of a plugin has been called. *)
Theorem unknown_selector_fails_before_setup :
  forall (lookup : string -> option string -> option plugin) (ctx : run)
         (sel : string) (raw : config) (name : string)
         (platform : option string),
    (sel, raw) ∈ run_config ctx ->
    split_selector sel = (name, platform) ->
    lookup name platform = None ->
    exists s,
      setup lookup (ContextManager ctx) =
        (ContextManager ctx, [], Raise (PluginNotFound s)).
Proof.
  intros lookup ctx sel raw name platform Hin Hs Hl.
  destruct (resolve_all_fails lookup ctx _ _ _ _ _ Hin Hs Hl) as [s E].
  exists s. unfold setup, _get_sorted_context_lst. simpl. by rewrite E.
Qed.

(** C8: a context plugin constructed from a run object stores the task of
    the run and, as its configuration: for a default mapping and an override
    mapping, the mapping that has the value of the override under each of
    its keys and the default value under the others; for an override that is
    neither a mapping nor a sequence, the override as it is; for a sequence,
    the tuple of its elements in the same order. *)
Theorem context_init_merges_config :
  forall (p : plugin) (ctx : run) (raw : config),
    own_raw p ctx = Some raw ->
    exists inst,
      context_init p ctx = Some inst /\
      c_task inst = run_task ctx /\
      (forall d o, p_default_config p = Some d -> raw = CfgDict o ->
         exists m, c_config inst = CfgDict m /\
           forall k, m !! k = match o !! k with
                              | Some v => Some v
                              | None => d !! k
                              end) /\
      (raw = CfgNone \/ (exists z, raw = CfgInt z) \/ (exists s, raw = CfgStr s) ->
         c_config inst = raw) /\
      (forall l, raw = CfgList l \/ raw = CfgTuple l ->
         c_config inst = CfgTuple l).
Proof.
  intros p ctx raw Hraw. unfold context_init. rewrite Hraw.
  eexists. split; [done|]. split; [done|]. simpl. repeat split.
  - intros d o -> ->. simpl. eexists. split; [done|].
    intros k. rewrite lookup_union. by destruct (o !! k), (d !! k).
  - intros [-> | [[z ->] | [s ->]]]; done.
  - intros l [-> | ->]; done.
Qed.



(** After the failed [setup()] of the first plugin, only that plugin is
    cleaned up; after a successful one both are, the last set up first. *)
Example cleanup_after_failed_setup :
  cleanup_calls
    (fst (cleanup (registry_lookup down_registry)
            (fst (fst (setup (registry_lookup down_registry)
                             (ContextManager sample_run))))))
  = [instance_a_down].
Proof. reflexivity. Qed.

Example cleanup_after_setup :
  cleanup_calls
    (fst (cleanup (registry_lookup sample_registry)
            (fst (fst (setup (registry_lookup sample_registry)
                             (ContextManager sample_run))))))
  = [instance_b; instance_a].
Proof. reflexivity. Qed.


(** The trace of [test_cleanup] with the failing plugin of
    [test_cleanup_exception]. *)
Example sample_cleanup_trace :
  cleanup (registry_lookup sample_registry) (ContextManager sample_run) =
    ([CleanupCalled instance_b; CleanupCalled instance_a;
      Logged "Context a@foo.cleanup() failed."], Ok tt).
Proof. reflexivity. Qed.

Lemma unknown_selector_fails_before_setup_witness :
  exists s,
    setup (registry_lookup sample_registry) (ContextManager unknown_run) =
      (ContextManager unknown_run, [], Raise (PluginNotFound s)).
Proof.
  apply (unknown_selector_fails_before_setup
           (registry_lookup sample_registry) unknown_run
           "foo@bar" (CfgStr "x") "foo" (Some "bar")).
  - apply elem_of_cons. right. apply elem_of_cons. by left.
  - reflexivity.
  - reflexivity.
Defined.

Lemma context_init_merges_config_witness :
  exists inst,
    context_init plugin_foo foo_run = Some inst /\
    c_config inst =
      CfgDict (<["ab" := PStr "cd"]>
                 (<["alpha" := PStr "beta"]> {["delta" := PStr "gamma"]})).
Proof.
  destruct (context_init_merges_config plugin_foo foo_run
              (CfgDict {["ab" := PStr "cd"]}) eq_refl)
    as (inst & Hi & _ & Hd & _).
  exists inst. split; [exact Hi|].
  destruct (Hd _ _ eq_refl eq_refl) as (m & Hm & Hk).
  rewrite Hm. f_equal. apply map_eq. intros k. rewrite Hk.
  destruct (decide (k = "ab")) as [->|Hne]; [reflexivity|].
  rewrite lookup_singleton_ne by congruence.
  symmetry. apply lookup_insert_ne. congruence.
Defined.

End ContextFacts.

(** ** More on the flattening pass *)

Module MonascaMore.
Import Monasca MonascaFacts MonascaLinks.

Lemma occ_nonneg l k : 0 <= occ l k.
Proof. unfold occ. lia. Qed.

Lemma occ_take_lt names : forall i j n,
  (i < j)%nat -> names !! i = Some n ->
  occ (take i names) n < occ (take j names) n.
Proof.
  induction names as [|m names IH]; intros i j n Hij Hi; [done|].
  destruct j as [|j]; [lia|].
  destruct i as [|i]; simpl in *.
  - inversion Hi; subst. rewrite occ_nil, occ_cons.
    rewrite decide_True by done. pose proof (occ_nonneg (take j names) n). lia.
  - rewrite !occ_cons. specialize (IH i j n ltac:(lia) Hi). lia.
Qed.

Lemma within_cons n a acts :
  within (S n) (a :: acts) =
  (a :: within n (a_children a)) ++ within (S n) acts.
Proof. reflexivity. Qed.

Section Pass.

Context {Metric : Type}.
Variable mk : report -> act_id -> Metric.
Variable iso : Z -> string.
Variable itr : iteration.
Variable w : workload.
Variable wid : pyval.

Implicit Types c : gmap string (cval Metric).

(** A call below the cut-off, entered with a cache that holds the list of
    metrics: the loop, then the test for the synthetic record. *)
Lemma process_state_loop acts parent depth c l0 :
  depth < 3 ->
  c !! "metrics" = Some (CList l0) ->
  process_state mk iso itr w wid (Some acts) parent depth (Some c) =
  let* d := for_each (fun a d => visit mk iso itr w wid a parent depth d)
                     acts c in
  if unattributed itr parent acts then Raise (AttributeError "metrics")
  else let* v := getitem d "metrics" in Ok (v, d).
Proof.
  intros Hd Hm. unfold process_state, body.
  rewrite bool_decide_false by lia.
  assert (size c <> 0%nat) as Hs.
  { intros Hz. apply map_size_empty_iff in Hz. subst.
    by rewrite lookup_empty in Hm. }
  rewrite bool_decide_false by done.
  unfold getitem at 1. rewrite Hm.
  assert ((if cval_truthy (CList l0) then CList l0 else CList [])
          = CList l0) as ->.
  { by destruct l0. }
  by rewrite insert_id.
Qed.

Lemma links_nil p acts : links p acts [] [].
Proof. intros j r a H. by rewrite lookup_nil in H. Qed.

Lemma links_node p a nodes recs rep id :
  r_parent rep = fst <$> p ->
  links (Some (id, rep)) (a_children a) nodes recs ->
  links p [a] (a :: nodes) ((rep, id) :: recs).
Proof.
  intros Hp Hl j r b Hr Hb. destruct j as [|j]; simpl in *.
  - inversion Hr; inversion Hb; subst. left. split; [done|]. left.
  - right. destruct (Hl j r b Hr Hb) as [[Hpar Hin] | (i & r' & a' & Hi & Hr' & Ha' & Hpar & Hin)].
    + exists 0%nat, (rep, id), a. repeat split; [lia|done..].
    + exists (S i), r', a'. repeat split; [lia|done..].
Qed.

Lemma links_app p acts1 acts2 nodes1 nodes2 recs1 recs2 :
  length nodes1 = length recs1 ->
  links p acts1 nodes1 recs1 ->
  links p acts2 nodes2 recs2 ->
  links p (acts1 ++ acts2) (nodes1 ++ nodes2) (recs1 ++ recs2).
Proof.
  intros Hlen H1 H2 j r a Hr Ha.
  destruct (decide (j < length recs1)%nat) as [Hj | Hj].
  - rewrite lookup_app_l in Hr by done.
    rewrite lookup_app_l in Ha by lia.
    destruct (H1 j r a Hr Ha) as [[Hpar Hin] | (i & r' & a' & Hi & Hr' & Ha' & Hpar & Hin)].
    + left. split; [done|]. apply elem_of_app. by left.
    + right. exists i, r', a'. repeat split; try done.
      * rewrite lookup_app_l; [done|]. lia.
      * rewrite lookup_app_l; [done|]. lia.
  - rewrite lookup_app_r in Hr by lia.
    rewrite lookup_app_r in Ha by lia. rewrite Hlen in Ha.
    destruct (H2 _ r a Hr Ha) as [[Hpar Hin] | (i & r' & a' & Hi & Hr' & Ha' & Hpar & Hin)].
    + left. split; [done|]. apply elem_of_app. by right.
    + right. exists (length recs1 + i)%nat, r', a'. repeat split; try done.
      * lia.
      * rewrite lookup_app_r by lia. rewrite <- Hr'. f_equal. lia.
      * rewrite lookup_app_r by lia. rewrite <- Ha'. f_equal. lia.
Qed.

(** The loop of a call below the cut-off returns, whatever its parent, and
    its records refer to their parents. *)
Lemma loop_links n : forall acts parent depth c l0,
  Z.to_nat (3 - depth) = S n ->
  c !! "metrics" = Some (CList l0) -> counters_only c ->
  Forall (fun a => a_name a <> "metrics") (within (S n) acts) ->
  exists recs c',
    for_each (fun a d => visit mk iso itr w wid a parent depth d) acts c
      = Ok c' /\
    post mk iso itr w wid c l0 c' recs (within (S n) acts) /\
    links parent acts (within (S n) acts) recs.
Proof.
  induction n as [|n IHn]; intros acts parent depth;
    (induction acts as [|a acts IHa]; intros c l0 Hd Hm Hc Hn;
     [ exists [], c; split; [done|]; split;
       [by apply post_refl | apply links_nil] | ]).
  all: rewrite within_cons in Hn;
       apply Forall_app in Hn as [Hn' Hn];
       apply Forall_cons in Hn' as [Ha Hch];
       simpl for_each; rewrite visit_unfold;
       rewrite take_num_ok by done; cbv beta iota zeta;
       unfold append_metric, getitem;
       rewrite lookup_insert_ne by done; rewrite Hm; cbv beta iota zeta;
       pose proof (post_node mk iso itr w wid c l0 a parent Ha Hm Hc) as Hp1;
       simpl in Hp1;
       set (id := {| itr_id := i_id itr; action_name := a_name a;
                     num := cnt c (a_name a) |}) in *;
       set (rep := node_report iso itr w wid a parent) in *;
       set (c2 := <["metrics" := _]> _) in *;
       pose proof Hp1 as (M1 & O1 & C1 & F1 & N1).
  - (* the children are at the cut-off *)
    assert (process_state mk iso itr w wid (Some (a_children a))
              (Some (id, rep)) (depth + 1) (Some c2)
            = Ok (CList (l0 ++ [mk rep id]), c2)) as ->.
    { unfold process_state, body. rewrite bool_decide_true by lia.
      unfold getitem. by rewrite M1. }
    destruct (IHa c2 _ Hd M1 O1 Hn) as (recs' & c4 & E4 & P4 & L4).
    fold (for_each (fun a d => visit mk iso itr w wid a parent depth d)).
    rewrite E4.
    exists ([(rep, id)] ++ recs'), c4. split; [done|].
    rewrite within_cons. simpl within at 1.
    split.
    + eapply post_trans; [done|exact Hp1|exact P4].
    + change (a :: acts) with ([a] ++ acts).
      apply links_app; [done| |done].
      apply links_node; [by destruct parent|apply links_nil].
  - (* the children are flattened by the next call *)
    assert (Z.to_nat (3 - (depth + 1)) = S n) as Hd' by lia.
    assert (depth + 1 < 3) as Hlt by lia.
    destruct (IHn (a_children a) (Some (id, rep)) (depth + 1) c2 _
                Hd' M1 O1 Hch) as (recs & c3 & E3 & P3 & L3).
    rewrite (process_state_loop _ _ _ _ _ Hlt M1).
    rewrite E3.
    assert (unattributed itr (Some (id, rep)) (a_children a) = false) as ->.
    { unfold unattributed. rewrite bool_decide_true by eauto.
      simpl. by rewrite andb_false_r. }
    unfold getitem. rewrite (proj1 P3).
    destruct (IHa c3 _ Hd (proj1 P3) (proj1 (proj2 P3)) Hn)
      as (recs' & c4 & E4 & P4 & L4).
    fold (for_each (fun a d => visit mk iso itr w wid a parent depth d)).
    rewrite E4.
    exists (((rep, id) :: recs) ++ recs'), c4. split; [done|].
    rewrite within_cons.
    assert (post mk iso itr w wid c l0 c3 ((rep, id) :: recs)
              (a :: within (S n) (a_children a))) as P13.
    { change ((rep, id) :: recs) with ([(rep, id)] ++ recs).
      change (a :: within (S n) (a_children a))
        with ([a] ++ within (S n) (a_children a)).
      eapply post_trans; [done|exact Hp1|exact P3]. }
    split.
    + eapply post_trans; [done|exact P13|].
      rewrite <- app_assoc in P4. exact P4.
    + change (a :: acts) with ([a] ++ acts).
      apply links_app; [|by (apply links_node; [by destruct parent|])|done].
      destruct P13 as (_ & _ & _ & F & _).
      by apply Forall2_length in F.
Qed.

(** An action named ["metrics"] stops the loop: its counter would be the
    list of metrics. *)
Lemma loop_shadowed n : forall acts parent depth c l0,
  Z.to_nat (3 - depth) = S n ->
  c !! "metrics" = Some (CList l0) -> counters_only c ->
  Exists (fun a => a_name a = "metrics") (within (S n) acts) ->
  for_each (fun a d => visit mk iso itr w wid a parent depth d) acts c
    = Raise TypeError.
Proof.
  induction n as [|n IHn]; intros acts parent depth;
    (induction acts as [|a acts IHa]; intros c l0 Hd Hm Hc Hex;
     [ by apply Exists_nil in Hex | ]).
  all: rewrite within_cons in Hex; apply Exists_app in Hex;
       simpl for_each; rewrite visit_unfold;
       destruct (decide (a_name a = "metrics")) as [Ea | Ha];
       [ rewrite Ea; unfold take_num, setdefault0, getitem;
         rewrite Hm; cbv beta iota zeta; by rewrite Hm | ];
       rewrite take_num_ok by done; cbv beta iota zeta;
       unfold append_metric, getitem;
       rewrite lookup_insert_ne by done; rewrite Hm; cbv beta iota zeta;
       pose proof (post_node mk iso itr w wid c l0 a parent Ha Hm Hc) as Hp1;
       simpl in Hp1;
       set (id := {| itr_id := i_id itr; action_name := a_name a;
                     num := cnt c (a_name a) |}) in *;
       set (rep := node_report iso itr w wid a parent) in *;
       set (c2 := <["metrics" := _]> _) in *;
       pose proof Hp1 as (M1 & O1 & C1 & F1 & N1).
  - destruct Hex as [Hex | Hex].
    { apply Exists_cons in Hex as [Hex | Hex]; [done|].
      by apply Exists_nil in Hex. }
    assert (process_state mk iso itr w wid (Some (a_children a))
              (Some (id, rep)) (depth + 1) (Some c2)
            = Ok (CList (l0 ++ [mk rep id]), c2)) as ->.
    { unfold process_state, body. rewrite bool_decide_true by lia.
      unfold getitem. by rewrite M1. }
    fold (for_each (fun a d => visit mk iso itr w wid a parent depth d)).
    by rewrite (IHa c2 _ Hd M1 O1 Hex).
  - assert (Z.to_nat (3 - (depth + 1)) = S n) as Hd' by lia.
    assert (depth + 1 < 3) as Hlt by lia.
    rewrite (process_state_loop _ _ _ _ _ Hlt M1).
    destruct (decide (Exists (fun a => a_name a = "metrics")
                        (within (S n) (a_children a)))) as [Hin | Hout].
    { by rewrite (IHn _ _ _ _ _ Hd' M1 O1 Hin). }
    apply Forall_Exists_neg in Hout.
    destruct (loop_links n (a_children a) (Some (id, rep)) (depth + 1) c2 _
                Hd' M1 O1 Hout) as (recs & c3 & E3 & P3 & _).
    rewrite E3.
    assert (unattributed itr (Some (id, rep)) (a_children a) = false) as ->.
    { unfold unattributed. rewrite bool_decide_true by eauto.
      simpl. by rewrite andb_false_r. }
    unfold getitem. rewrite (proj1 P3).
    destruct Hex as [Hex | Hex].
    { apply Exists_cons in Hex as [Hex | Hex]; [done|].
      apply Forall_Exists_neg in Hout. done. }
    fold (for_each (fun a d => visit mk iso itr w wid a parent depth d)).
    by rewrite (IHa c3 _ Hd (proj1 P3) (proj1 (proj2 P3)) Hex).
Qed.

End Pass.

(** X1: the identifiers of the records of one pass are pairwise distinct.
    When the pass is entered with a cache that holds the list of metrics
    and reaches its return, no two of the records it adds have the same
    identifier. *)
Theorem flattened_identifiers_unique :
  forall (Metric : Type) (mk : report -> act_id -> Metric) (iso : Z -> string)
         (itr : iteration) (w : workload) (wid : pyval)
         (c : gmap string (cval Metric)) (l0 : list Metric),
    c !! "metrics" = Some (CList l0) ->
    counters_only c ->
    Forall (fun a => a_name a <> "metrics") (within 3 (i_atomic_actions itr)) ->
    unattributed itr None (i_atomic_actions itr) = false ->
    exists recs,
      _process_atomic_actions mk iso itr w wid None None 0 (Some c)
        = Ok (CList (l0 ++ map (metric_of mk) recs)) /\
      length recs = length (within 3 (i_atomic_actions itr)) /\
      NoDup (map snd recs).
Proof.
  intros Metric mk iso itr w wid c l0 Hm Hc Hn Hu.
  destruct (top_level_ok mk iso itr w wid c l0 Hm Hc Hn Hu)
    as (recs & c' & E & (_ & _ & _ & F & N)).
  exists recs. split; [done|]. split; [symmetry; by eapply Forall2_length|].
  pose proof (emitted_names iso itr w wid _ _ F) as En.
  set (names := map a_name (within 3 (i_atomic_actions itr))) in *.
  assert (forall i r, recs !! i = Some r ->
            names !! i = Some (action_name (snd r)) /\
            num (snd r) = cnt c (action_name (snd r)) +
                          occ (take i names) (action_name (snd r))) as Hidx.
  { intros i r Hr.
    assert (names !! i = Some (action_name (snd r))) as Hname.
    { rewrite <- En, list_lookup_fmap, Hr. done. }
    split; [done|].
    assert (nums (cnt c) [] names !! i = Some (num (snd r))) as Hi.
    { rewrite <- N. by rewrite list_lookup_fmap, Hr. }
    apply nums_lookup in Hi as (n & Hn' & ->). simpl.
    congruence. }
  apply NoDup_alt. intros i j x Hi Hj.
  apply list_lookup_fmap_Some in Hi as (ri & -> & Hri).
  apply list_lookup_fmap_Some in Hj as (rj & Heq & Hrj).
  destruct (Hidx _ _ Hri) as [Ni Vi]. destruct (Hidx _ _ Hrj) as [Nj Vj].
  rewrite <- Heq in Nj, Vj. rewrite Vi in Vj.
  destruct (Nat.lt_trichotomy i j) as [Hlt | [-> | Hlt]]; [|done|].
  - pose proof (occ_take_lt names i j _ Hlt Ni). lia.
  - pose proof (occ_take_lt names j i _ Hlt Nj). lia.
Qed.

Lemma flattened_identifiers_unique_witness :
  exists recs,
    _process_atomic_actions pair_metric epoch_text two_parents
      sample_workload (PStr "w-1") None None 0 (Some primed)
      = Ok (CList ([] ++ map (metric_of pair_metric) recs)) /\
    length recs = length (within 3 (i_atomic_actions two_parents)) /\
    NoDup (map snd recs).
Proof.
  apply (flattened_identifiers_unique _ pair_metric epoch_text
           two_parents sample_workload (PStr "w-1") primed []).
  - reflexivity.
  - apply counters_only_primed.
  - repeat constructor; discriminate.
  - reflexivity.
Defined.

(** X2: every record refers to its parent.  In a pass that is entered with
    a cache holding the list of metrics and reaches its return, each record
    either has no parent and belongs to a top-level action, or has, as its
    parent, the identifier of a record emitted earlier in the same pass,
    whose node it is a child of. *)
Theorem records_refer_to_earlier_parents :
  forall (Metric : Type) (mk : report -> act_id -> Metric) (iso : Z -> string)
         (itr : iteration) (w : workload) (wid : pyval)
         (c : gmap string (cval Metric)) (l0 : list Metric),
    c !! "metrics" = Some (CList l0) ->
    counters_only c ->
    Forall (fun a => a_name a <> "metrics") (within 3 (i_atomic_actions itr)) ->
    unattributed itr None (i_atomic_actions itr) = false ->
    exists recs,
      _process_atomic_actions mk iso itr w wid None None 0 (Some c)
        = Ok (CList (l0 ++ map (metric_of mk) recs)) /\
      Forall2 (emitted iso itr w wid) (within 3 (i_atomic_actions itr)) recs /\
      forall j r a,
        recs !! j = Some r ->
        within 3 (i_atomic_actions itr) !! j = Some a ->
        (r_parent (fst r) = None /\ a ∈ i_atomic_actions itr) \/
        (exists i r' a',
           (i < j)%nat /\ recs !! i = Some r' /\
           within 3 (i_atomic_actions itr) !! i = Some a' /\
           r_parent (fst r) = Some (snd r') /\ a ∈ a_children a').
Proof.
  intros Metric mk iso itr w wid c l0 Hm Hc Hn Hu.
  destruct (loop_links mk iso itr w wid 2 (i_atomic_actions itr) None 0 c l0
              eq_refl Hm Hc Hn) as (recs & c' & E & P & L).
  exists recs. split; [|split; [exact (proj1 (proj2 (proj2 (proj2 P))))|exact L]].
  unfold _process_atomic_actions.
  change (process_state mk iso itr w wid None None 0 (Some c))
    with (process_state mk iso itr w wid (Some (i_atomic_actions itr))
            None 0 (Some c)).
  rewrite (process_state_loop mk iso itr w wid (i_atomic_actions itr) None 0
             c l0 eq_refl Hm).
  rewrite E, Hu. unfold getitem. by rewrite (proj1 P).
Qed.

Lemma records_refer_to_earlier_parents_witness :
  exists recs,
    _process_atomic_actions pair_metric epoch_text chain
      sample_workload (PStr "w-1") None None 0 (Some primed)
      = Ok (CList ([] ++ map (metric_of pair_metric) recs)) /\
    Forall2 (emitted epoch_text chain sample_workload (PStr "w-1"))
            (within 3 (i_atomic_actions chain)) recs /\
    forall j r a,
      recs !! j = Some r ->
      within 3 (i_atomic_actions chain) !! j = Some a ->
      (r_parent (fst r) = None /\ a ∈ i_atomic_actions chain) \/
      (exists i r' a',
         (i < j)%nat /\ recs !! i = Some r' /\
         within 3 (i_atomic_actions chain) !! i = Some a' /\
         r_parent (fst r) = Some (snd r') /\ a ∈ a_children a').
Proof.
  apply (records_refer_to_earlier_parents _ pair_metric epoch_text
           chain sample_workload (PStr "w-1") primed []).
  - reflexivity.
  - apply counters_only_primed.
  - repeat constructor; discriminate.
  - reflexivity.
Defined.

(** X3: a failed iteration that has no atomic action, or whose last
    top-level action is not marked failed, never gets its synthetic record.
    For a top-level call entered with a cache that holds the list of metrics
    under ["metrics"] and otherwise only counters: when no action the pass
    reaches is named ["metrics"] and the test for the synthetic record is
    true, the pass flattens the tree and then raises [AttributeError] on
    [cache.metrics]; when an action the pass reaches is named ["metrics"],
    it raises [TypeError] before that test; and the pass returns exactly
    when no reached action is named ["metrics"] and the test for the
    synthetic record is false. *)
Theorem unattributed_failure_raises :
  forall (Metric : Type) (mk : report -> act_id -> Metric) (iso : Z -> string)
         (itr : iteration) (w : workload) (wid : pyval)
         (c : gmap string (cval Metric)) (l0 : list Metric),
    c !! "metrics" = Some (CList l0) ->
    counters_only c ->
    let out := _process_atomic_actions mk iso itr w wid None None 0 (Some c) in
    let reached := within 3 (i_atomic_actions itr) in
    (Forall (fun a => a_name a <> "metrics") reached ->
     unattributed itr None (i_atomic_actions itr) = true ->
     out = Raise (AttributeError "metrics")) /\
    (Exists (fun a => a_name a = "metrics") reached ->
     out = Raise TypeError) /\
    (is_ok out = true <->
     Forall (fun a => a_name a <> "metrics") reached /\
     unattributed itr None (i_atomic_actions itr) = false).
Proof.
  intros Metric mk iso itr w wid c l0 Hm Hc out reached.
  assert (process_state mk iso itr w wid None None 0 (Some c) =
          let* d := for_each (fun a d => visit mk iso itr w wid a None 0 d)
                             (i_atomic_actions itr) c in
          if unattributed itr None (i_atomic_actions itr)
          then Raise (AttributeError "metrics")
          else let* v := getitem d "metrics" in Ok (v, d)) as Hout.
  { change (process_state mk iso itr w wid None None 0 (Some c))
      with (process_state mk iso itr w wid (Some (i_atomic_actions itr))
              None 0 (Some c)).
    by rewrite (process_state_loop mk iso itr w wid (i_atomic_actions itr)
                  None 0 c l0 eq_refl Hm). }
  assert (Forall (fun a => a_name a <> "metrics") reached ->
          (unattributed itr None (i_atomic_actions itr) = true ->
           out = Raise (AttributeError "metrics")) /\
          (unattributed itr None (i_atomic_actions itr) = false ->
           is_ok out = true)) as Hclean.
  { intros Hn.
    destruct (loop_links mk iso itr w wid 2 (i_atomic_actions itr) None 0
                c l0 eq_refl Hm Hc Hn) as (recs & c' & E & P & _).
    subst out. unfold _process_atomic_actions. rewrite Hout, E.
    cbv beta iota zeta.
    split; intros ->; [done|].
    unfold getitem. by rewrite (proj1 P). }
  assert (Exists (fun a => a_name a = "metrics") reached ->
          out = Raise TypeError) as Hshadow.
  { intros Hex. subst out. unfold _process_atomic_actions. rewrite Hout.
    by rewrite (loop_shadowed mk iso itr w wid 2 _ None 0 c l0 eq_refl
                  Hm Hc Hex). }
  split; [intros Hn; by apply Hclean|]. split; [done|].
  split.
  - intros Hok.
    destruct (decide (Exists (fun a => a_name a = "metrics") reached))
      as [Hex|Hnex].
    { rewrite (Hshadow Hex) in Hok. discriminate. }
    assert (Forall (fun a => a_name a <> "metrics") reached) as Hn.
    { apply Forall_forall. intros a Ha En. apply Hnex.
      apply Exists_exists. by exists a. }
    split; [done|].
    destruct (unattributed itr None (i_atomic_actions itr)) eqn:Eu; [|done].
    rewrite (proj1 (Hclean Hn) eq_refl) in Hok. discriminate.
  - intros [Hn Eu]. by apply (Hclean Hn).
Qed.

Lemma unattributed_failure_raises_witness :
  _process_atomic_actions pair_metric epoch_text late_failure
    sample_workload (PStr "w-1") None None 0 (Some primed)
  = Raise (AttributeError "metrics").
Proof.
  apply (unattributed_failure_raises _ pair_metric epoch_text
           late_failure sample_workload (PStr "w-1") primed []).
  - reflexivity.
  - apply counters_only_primed.
  - repeat constructor; discriminate.
  - reflexivity.
Defined.

(** X4: an atomic action named ["metrics"] makes the pass fail.  The
    counters of the names live in the dictionary that holds the list of
    metrics under the key ["metrics"]; when a node the pass reaches has that
    name, its counter is the list and adding 1 to it raises [TypeError]. *)
Theorem action_named_metrics_raises :
  forall (Metric : Type) (mk : report -> act_id -> Metric) (iso : Z -> string)
         (itr : iteration) (w : workload) (wid : pyval)
         (c : gmap string (cval Metric)) (l0 : list Metric),
    c !! "metrics" = Some (CList l0) ->
    counters_only c ->
    Exists (fun a => a_name a = "metrics") (within 3 (i_atomic_actions itr)) ->
    _process_atomic_actions mk iso itr w wid None None 0 (Some c)
      = Raise TypeError.
Proof.
  intros Metric mk iso itr w wid c l0 Hm Hc Hex.
  unfold _process_atomic_actions.
  change (process_state mk iso itr w wid None None 0 (Some c))
    with (process_state mk iso itr w wid (Some (i_atomic_actions itr))
            None 0 (Some c)).
  rewrite (process_state_loop mk iso itr w wid (i_atomic_actions itr) None 0
             c l0 eq_refl Hm).
  by rewrite (loop_shadowed mk iso itr w wid 2 _ None 0 c l0 eq_refl Hm Hc Hex).
Qed.

Lemma action_named_metrics_raises_witness :
  _process_atomic_actions pair_metric epoch_text shadowing
    sample_workload (PStr "w-1") None None 0 (Some primed)
  = Raise TypeError.
Proof.
  apply (action_named_metrics_raises _ pair_metric epoch_text
           shadowing sample_workload (PStr "w-1") primed []).
  - reflexivity.
  - apply counters_only_primed.
  - right. left. reflexivity.
Defined.

(** X5: a call returns only when its caller hands it a cache that has the
    key ["metrics"].  With the default [_cache=None], or with an empty
    dictionary, a call below the cut-off raises [KeyError] on ["metrics"]
    for every iteration. *)
Theorem returns_only_with_primed_cache :
  forall (Metric : Type) (mk : report -> act_id -> Metric) (iso : Z -> string)
         (itr : iteration) (w : workload) (wid : pyval)
         (acts : option (list action)) (parent : option parent_ref)
         (depth : Z) (cache : option (gmap string (cval Metric))),
    (is_ok (_process_atomic_actions mk iso itr w wid acts parent depth cache)
       = true ->
     exists c, cache = Some c /\ is_Some (c !! "metrics")) /\
    (depth < 3 -> cache = None \/ cache = Some ∅ ->
     _process_atomic_actions mk iso itr w wid acts parent depth cache
       = Raise (KeyError "metrics")).
Proof.
  intros Metric mk iso itr w wid acts parent depth cache. split.
  - unfold _process_atomic_actions, process_state, body, getitem.
    destruct (bool_decide (3 <= depth)).
    + destruct cache as [c|]; [|done].
      destruct (c !! "metrics") eqn:E; [eauto|done].
    + destruct cache as [c|].
      * destruct (bool_decide (size c = 0%nat)).
        -- by rewrite lookup_empty.
        -- destruct (c !! "metrics") eqn:E; [eauto|done].
      * by rewrite lookup_empty.
  - intros Hd Hc. unfold _process_atomic_actions, process_state, body, getitem.
    rewrite bool_decide_false by lia.
    destruct Hc as [-> | ->]; [by rewrite lookup_empty|].
    rewrite bool_decide_true by apply map_size_empty.
    by rewrite lookup_empty.
Qed.

Lemma returns_only_with_primed_cache_witness :
  _process_atomic_actions pair_metric epoch_text nested_failure
    sample_workload (PStr "w-1") None None 0 None
  = Raise (KeyError "metrics").
Proof.
  apply (returns_only_with_primed_cache _ pair_metric epoch_text
           nested_failure sample_workload (PStr "w-1") None None 0 None).
  - reflexivity.
  - by left.
Defined.

End MonascaMore.

(** ** The workload metrics *)

Module WorkloadMetricsFacts.
Import WorkloadMetrics.

Lemma pick_into_ok report keys : forall acc,
  Forall (fun k => is_Some (report !! k)) keys ->
  exists m,
    pick_into report keys acc = Ok m /\
    (forall k, k ∈ keys -> m !! k = report !! k) /\
    (forall k, k ∉ keys -> m !! k = acc !! k).
Proof.
  induction keys as [|key rest IH]; intros acc H.
  - exists acc. split; [done|]. split; [|done].
    intros k Hk. by apply elem_of_nil in Hk.
  - apply Forall_cons in H as [[v Hv] H]. simpl. unfold item. rewrite Hv.
    destruct (IH (<[key := v]> acc) H) as (m & E & Hin & Hout).
    exists m. split; [done|]. split.
    + intros k Hk. destruct (decide (k ∈ rest)) as [Hr | Hr]; [by apply Hin|].
      apply elem_of_cons in Hk as [-> | Hk]; [|done].
      rewrite Hout by done. by rewrite lookup_insert_eq.
    + intros k Hk. apply not_elem_of_cons in Hk as [Hne Hk].
      rewrite Hout by done. by rewrite lookup_insert_ne.
Qed.

Lemma pick_into_missing report keys : forall acc before key after,
  keys = before ++ key :: after ->
  Forall (fun k => is_Some (report !! k)) before ->
  report !! key = None ->
  pick_into report keys acc = Raise (KeyError key).
Proof.
  intros acc before. revert keys acc.
  induction before as [|b before IH]; intros keys acc key after -> Hb Hk; simpl.
  - unfold item. by rewrite Hk.
  - apply Forall_cons in Hb as [[v Hv] Hb]. unfold item. rewrite Hv.
    by eapply IH.
Qed.

(** X6: when the context has the title of the subtask and the report has
    every key the metrics read, [create_workload_metrics] returns two
    metrics, the load duration and then the success rate, named after the
    title; both carry the same dimensions, which are the four dimension
    keys with the values of the report and nothing else of the report. *)
Theorem workload_metrics_of_full_report :
  forall (str_of : pyval -> string)
         (context : gmap string (gmap string pyval))
         (report subtask : gmap string pyval) (title : pyval),
    context !! "subtask" = Some subtask ->
    subtask !! "title" = Some title ->
    Forall (fun k => is_Some (report !! k)) required_keys ->
    exists m1 m2,
      create_workload_metrics str_of context report = Ok [m1; m2] /\
      m_name m1 = "rally_" +:+ str_of title +:+ "_load_duration" /\
      m_name m2 = "rally_" +:+ str_of title +:+ "_success_rate" /\
      Some (m_value m1) = report !! "load_duration" /\
      Some (m_value m2) = report !! "success_rate" /\
      m_dimensions m1 = m_dimensions m2 /\
      m_value_meta m1 = m_value_meta m2 /\
      (forall k, m_dimensions m1 !! k =
                 if bool_decide (k ∈ dimension_keys) then report !! k
                 else None) /\
      (forall k, m_value_meta m1 !! k =
                 if bool_decide (k = "scenario_cfg") then report !! k
                 else None).
Proof.
  intros str_of context report subtask title Hs Ht Hall.
  unfold required_keys in Hall.
  apply Forall_app in Hall as [Hdim Hall].
  apply Forall_app in Hall as [Hmeta Hall].
  apply Forall_cons in Hall as [[v1 Hv1] Hall].
  apply Forall_cons in Hall as [[v2 Hv2] _].
  destruct (pick_into_ok report dimension_keys ∅ Hdim)
    as (dims & Ed & Hdin & Hdout).
  destruct (pick_into_ok report meta_keys ∅ Hmeta)
    as (meta & Em & Hmin & Hmout).
  unfold create_workload_metrics, item.
  rewrite Hs, Ht, Ed, Em, Hv1, Hv2. simpl.
  do 2 eexists. split; [reflexivity|]. simpl.
  repeat split; try done.
  - intros k. case_bool_decide as Hk; [by apply Hdin|].
    rewrite Hdout by done. apply lookup_empty.
  - intros k. case_bool_decide as Hk.
    + apply Hmin. subst. left.
    + rewrite Hmout; [apply lookup_empty|].
      unfold meta_keys. intros Hin. apply list_elem_of_singleton in Hin. done.
Qed.

Lemma workload_metrics_of_full_report_witness :
  exists m1 m2,
    create_workload_metrics plain_str sample_context full_report
      = Ok [m1; m2] /\
    m_name m1 = "rally_boot_load_duration" /\
    m_name m2 = "rally_boot_success_rate".
Proof.
  destruct (workload_metrics_of_full_report plain_str sample_context
              full_report {["title" := PStr "boot"]} (PStr "boot")
              eq_refl eq_refl) as (m1 & m2 & E & N1 & N2 & _).
  - repeat constructor; vm_compute; eauto.
  - exists m1, m2. split; [exact E|]. split; [exact N1|exact N2].
Defined.

(** X7: a report that lacks one of the keys makes
    [create_workload_metrics] raise [KeyError] with the first missing key,
    in the order task_uuid, subtask_uuid, deployment_uuid, deployment_name,
    scenario_cfg, load_duration, success_rate; no metric is returned, not
    even the load duration when only the success rate is missing. *)
Theorem workload_metrics_missing_key :
  forall (str_of : pyval -> string)
         (context : gmap string (gmap string pyval))
         (report subtask : gmap string pyval) (title : pyval)
         (before after : list string) (key : string),
    context !! "subtask" = Some subtask ->
    subtask !! "title" = Some title ->
    required_keys = before ++ key :: after ->
    Forall (fun k => is_Some (report !! k)) before ->
    report !! key = None ->
    create_workload_metrics str_of context report = Raise (KeyError key).
Proof.
  intros str_of context report subtask title before after key
         Hs Ht Hreq Hb Hk.
  unfold create_workload_metrics, item at 1 2. rewrite Hs, Ht.
  assert (forall k, k ∈ before -> is_Some (report !! k)) as Hb'.
  { by apply Forall_forall. }
  unfold required_keys, dimension_keys, meta_keys in Hreq. simpl in Hreq.
  do 7 (destruct before as [|? before];
        [ simplify_eq/=;
          repeat match goal with
                 | |- context [pick_into report ?ks ∅] =>
                   first
                     [ rewrite (pick_into_missing report ks ∅ _ _ _ eq_refl)
                         by (first [done | repeat constructor; apply Hb'; set_solver])
                     | let m := fresh "m" in let E := fresh "E" in
                       destruct (pick_into_ok report ks ∅) as (m & E & _);
                       [ repeat constructor; apply Hb'; set_solver | rewrite E ] ]
                 end;
          unfold item;
          repeat match goal with
                 | |- context [report !! ?k] =>
                   first [ rewrite Hk
                         | let v := fresh "v" in let E := fresh "E" in
                           destruct (Hb' k ltac:(set_solver)) as [v E]; rewrite E ]
                 end; done
        | simplify_eq/= ]).
  destruct before; simplify_eq/=.
Qed.

Lemma workload_metrics_missing_key_witness :
  create_workload_metrics plain_str sample_context partial_report
    = Raise (KeyError "success_rate").
Proof.
  apply (workload_metrics_missing_key plain_str sample_context partial_report
           {["title" := PStr "boot"]} (PStr "boot")
           ["task_uuid"; "subtask_uuid"; "deployment_uuid";
            "deployment_name"; "scenario_cfg"; "load_duration"] []
           "success_rate" eq_refl eq_refl eq_refl).
  - repeat constructor; vm_compute; eauto.
  - reflexivity.
Defined.

End WorkloadMetricsFacts.

(** ** The testr context and launcher *)

Module TestrRunFacts.
Import Testr TestrFacts TestrRun.

Lemma split_lines_free x : newline_free x = true -> split_lines x = [x].
Proof.
  induction x as [|c x IH]; simpl; [done|].
  intros H. apply andb_true_iff in H as [Hc Hx].
  apply negb_true_iff in Hc. rewrite Hc, IH; done.
Qed.

Lemma split_lines_app x y :
  newline_free x = true ->
  split_lines (x +:+ String newline y) = x :: split_lines y.
Proof.
  induction x as [|c x IH]; simpl.
  - done.
  - intros H. apply andb_true_iff in H as [Hc Hx].
    apply negb_true_iff in Hc. rewrite Hc, IH; done.
Qed.

Lemma string_app_nil_r s : s +:+ EmptyString = s.
Proof.
  induction s as [|c s IH]; [done|].
  change (String c (s +:+ EmptyString) = String c s). by rewrite IH.
Qed.

Lemma string_app_assoc a b c : (a +:+ b) +:+ c = a +:+ (b +:+ c).
Proof.
  induction a as [|x a IH]; [done|].
  change (String x ((a +:+ b) +:+ c) = String x (a +:+ (b +:+ c))).
  by rewrite IH.
Qed.

Lemma join_lines_cons x y names :
  join_lines (x :: y :: names) = x +:+ String newline (join_lines (y :: names)).
Proof. reflexivity. Qed.

Lemma split_join_tail names : forall tail,
  names <> [] ->
  Forall (fun t => newline_free t = true) names ->
  split_lines (join_lines names +:+ String newline tail)
    = names ++ split_lines tail.
Proof.
  induction names as [|x names IH]; intros tail Hne Hf; [done|].
  apply Forall_cons in Hf as [Hx Hf].
  destruct names as [|y names].
  - simpl join_lines. by apply split_lines_app.
  - rewrite join_lines_cons, string_app_assoc.
    change (String newline (join_lines (y :: names)) +:+ String newline tail)
      with (String newline (join_lines (y :: names) +:+ String newline tail)).
    rewrite split_lines_app by done.
    rewrite IH by done. reflexivity.
Qed.

Lemma split_join names :
  names <> [] ->
  Forall (fun t => newline_free t = true) names ->
  split_lines (join_lines names) = names.
Proof.
  induction names as [|x names IH]; intros Hne Hf; [done|].
  apply Forall_cons in Hf as [Hx Hf].
  destruct names as [|y names].
  - simpl. by apply split_lines_free.
  - rewrite join_lines_cons.
    rewrite split_lines_app by done. f_equal. by apply IH.
Qed.

Lemma filter_all {A} (P : A -> Prop) `{!forall x, Decision (P x)} (l : list A) :
  Forall P l -> filter P l = l.
Proof.
  induction 1 as [|x l Hx _ IH]; [done|].
  rewrite filter_cons, decide_True by done. by rewrite IH.
Qed.

(** X12: listing the tests reads back a list of test names.  When the
    command prints names that match [TEST_NAME_RE], one on each line, with
    or without a newline after the last one, [list_tests] returns these
    names in the same order; the empty piece after a last newline is not a
    test. *)
Theorem list_tests_reads_back_names :
  forall (check_output : list string -> string) (use_testr : bool)
         (pattern : string) (names : list string) (last_newline : bool),
    Forall (fun t => TEST_NAME_RE_match t = true) names ->
    Forall (fun t => newline_free t = true) names ->
    check_output (if use_testr then ["testr"; "list-tests"; pattern]
                  else ["stestr"; "list"; pattern])
      = join_lines names +:+
        (if last_newline then String newline EmptyString else EmptyString) ->
    list_tests check_output use_testr pattern = names.
Proof.
  intros check_output use_testr pattern names last_newline Hm Hf Hout.
  unfold list_tests. rewrite Hout. clear Hout.
  destruct names as [|x names].
  - destruct last_newline; reflexivity.
  - destruct last_newline.
    + rewrite split_join_tail by done. simpl split_lines.
      rewrite filter_app, filter_all by done.
      rewrite filter_cons, decide_False by done. by rewrite app_nil_r.
    + rewrite string_app_nil_r, split_join by done.
      by apply filter_all.
Qed.

Lemma list_tests_reads_back_names_witness :
  list_tests sample_listing true EmptyString
  = ["tempest.api.a"; "tempest.api.b[id-1,smoke]"].
Proof.
  apply (list_tests_reads_back_names sample_listing true EmptyString
           ["tempest.api.a"; "tempest.api.b[id-1,smoke]"] true).
  - repeat constructor.
  - repeat constructor.
  - reflexivity.
Defined.


Section SkipKeys.

Context {Pattern Reason : Type}.
Variable re_compile : string -> option Pattern.
Variable re_search : Pattern -> string -> bool.

Lemma mark_tests_marks p (r : Reason) load_list : forall res t,
  t ∈ load_list -> re_search p t = true ->
  is_Some (mark_tests re_search p r load_list res !! t).
Proof.
  induction load_list as [|x l IH]; intros res t Hin Hs.
  - by apply elem_of_nil in Hin.
  - destruct (decide (t = x)) as [->|Hne].
    + unfold mark_tests. simpl. rewrite Hs.
      apply (mark_tests_keeps re_search p r l).
      rewrite lookup_insert_eq. eauto.
    + apply elem_of_cons in Hin as [Hin | Hin]; [done|].
      unfold mark_tests. simpl.
      by apply (IH (if re_search p x then <[x:=r]> res else res)).
Qed.

Lemma skip_fold_keeps load_list (items : list (string * Reason)) :
  forall res k,
  is_Some (res !! k) ->
  is_Some (foldl (skip_step re_compile re_search load_list) res items !! k).
Proof.
  induction items as [|[regex reason] items IH]; intros res k H; [done|].
  simpl. apply IH. unfold skip_step. simpl.
  destruct (re_compile regex).
  - by apply mark_tests_keeps.
  - destruct (decide (regex = k)) as [->|Hne].
    + rewrite lookup_insert_eq. eauto.
    + by rewrite lookup_insert_ne.
Qed.

Lemma skip_fold_matched_present load_list (items : list (string * Reason)) :
  forall res t regex reason pattern,
  t ∈ load_list -> (regex, reason) ∈ items ->
  re_compile regex = Some pattern -> re_search pattern t = true ->
  is_Some (foldl (skip_step re_compile re_search load_list) res items !! t).
Proof.
  induction items as [|[regex' reason'] items IH];
    intros res t regex reason pattern Ht Hin Hc Hs.
  - by apply elem_of_nil in Hin.
  - simpl. apply elem_of_cons in Hin as [Heq | Hin].
    + inversion Heq; subst. apply skip_fold_keeps.
      unfold skip_step. simpl. rewrite Hc. by apply mark_tests_marks.
    + by eapply IH.
Qed.

(** The keys of the expanded skip list. *)
Lemma expanded_keys load_list (items : list (string * Reason)) t :
  t ∈ load_list ->
  (t ∈ dom (_expand_skip_list re_compile re_search load_list (Some items)) <->
   (exists regex reason pattern,
      (regex, reason) ∈ items /\ re_compile regex = Some pattern /\
      re_search pattern t = true) \/
   (exists reason, (t, reason) ∈ items /\ re_compile t = None)).
Proof.
  intros Ht. rewrite elem_of_dom, expand_skip_list_fold. split.
  - intros [v Hv].
    apply skip_fold_origin in Hv as [(_ & regex & p & Hin & Hc & Hs) | [Hin Hc]].
    + left. exists regex, v, p. done.
    + right. exists v. done.
  - intros [(regex & reason & p & Hin & Hc & Hs) | (reason & Hin & Hc)].
    + by eapply skip_fold_matched_present.
    + by eapply skip_fold_invalid_present.
Qed.

End SkipKeys.

Lemma concurrency_flags (cmd : list string) (use_testr : bool) (c : Z) :
  (let cmd :=
     if Z.eqb c 0 || Z.ltb 1 c then
       if use_testr then cmd ++ ["--parallel"] else cmd
     else cmd in
   if Z.leb 1 c then
     if Z.eqb c 1 && negb use_testr then cmd ++ ["--serial"]
     else cmd ++ ["--concurrency"; pretty c]
   else cmd) = cmd ++ concurrency_args use_testr c.
Proof.
  unfold concurrency_args.
  destruct (Z.eqb_spec c 0), (Z.ltb_spec 1 c), (Z.leb_spec 1 c),
    (Z.eqb_spec c 1), (Z.leb_spec c (-1)); try lia;
    destruct use_testr; subst; simpl; rewrite <- ?app_assoc, ?app_nil_r;
    reflexivity.
Qed.

(** X8: the command that [setup] builds.  It is the runner with [run] and
    [--subunit], then the concurrency arguments, then the load list file if
    one was written, then [--failing] if asked for, then the pattern if it
    is not empty.  The concurrency arguments are: none for a negative
    value; for 0, [--parallel] with testr and nothing with stestr; for 1,
    [--concurrency 1] with testr (without [--parallel]) and [--serial] with
    stestr; above 1, [--concurrency n], after [--parallel] with testr. *)
Theorem testr_command_shape :
  forall (Pattern Reason : Type) (re_compile : string -> option Pattern)
         (re_search : Pattern -> string -> bool) (use_testr : bool)
         (prepare_run_args : run_args -> run_args)
         (manager_list_tests : list string) (path : string)
         (context_run_args : option (run_args (Reason := Reason)))
         (tmp_files : list string),
    let run_args := prepare_run_args (default no_run_args context_run_args) in
    let st := setup re_compile re_search use_testr prepare_run_args
                    manager_list_tests path context_run_args tmp_files in
    testr_cmd st =
      [if use_testr then "testr" else "stestr"; "run"; "--subunit"] ++
      concurrency_args use_testr (default 0 (ra_concurrency run_args)) ++
      match written st with
      | Some (file, _) => ["--load-list"; file]
      | None => []
      end ++
      (if ra_failed run_args then ["--failing"] else []) ++
      match ra_pattern run_args with
      | Some (String c p) => [String c p]
      | _ => []
      end.
Proof.
  intros Pattern Reason re_compile re_search use_testr prepare_run_args
         manager_list_tests path context_run_args tmp_files run_args st.
  subst st. unfold setup. fold run_args.
  rewrite concurrency_flags.
  destruct (match ra_skip_list run_args with
            | Some (item :: items) => _
            | _ => _
            end) as [ll ns].
  destruct (tests_truthy ll), (ra_failed run_args),
    (ra_pattern run_args) as [[|ch p]|]; simpl;
    rewrite <- ?app_assoc, ?app_nil_r; reflexivity.
Qed.

(** X9: the tests that are left to run.  With a skip list that is not
    empty, [setup] replaces [run_args["skip_list"]] by its expansion over
    the candidate tests (the load list, or all the tests of the manager
    when there is none) and keeps, as its load list, the set of the
    candidates in which no pattern of the skip list that compiles is found
    and which are not themselves a pattern that does not compile; this set
    is what it writes, unless it is empty. *)
Theorem load_list_leaves_out_skipped :
  forall (Pattern Reason : Type) (re_compile : string -> option Pattern)
         (re_search : Pattern -> string -> bool) (use_testr : bool)
         (prepare_run_args : run_args -> run_args)
         (manager_list_tests : list string) (path : string)
         (context_run_args : option (run_args (Reason := Reason)))
         (tmp_files : list string)
         (item : string * Reason) (items : list (string * Reason)),
    let run_args := prepare_run_args (default no_run_args context_run_args) in
    let candidates :=
      match ra_load_list run_args with
      | Some (t :: l) => t :: l
      | _ => manager_list_tests
      end in
    let st := setup re_compile re_search use_testr prepare_run_args
                    manager_list_tests path context_run_args tmp_files in
    ra_skip_list run_args = Some (item :: items) ->
    exists left_over : gset string,
      load_list st = Remaining left_over /\
      new_skip_list st =
        Some (_expand_skip_list re_compile re_search candidates
                                (Some (item :: items))) /\
      (forall t, t ∈ left_over <->
         t ∈ candidates /\
         (forall regex reason pattern,
            (regex, reason) ∈ item :: items ->
            re_compile regex = Some pattern -> re_search pattern t = false) /\
         (forall reason,
            (t, reason) ∈ item :: items -> is_Some (re_compile t))) /\
      written st =
        (if bool_decide (left_over = ∅) then None
         else Some (path, JoinedInAnyOrder left_over)).
Proof.
  intros Pattern Reason re_compile re_search use_testr prepare_run_args
         manager_list_tests path context_run_args tmp_files item items
         run_args candidates st Hskip.
  subst st. unfold setup. fold run_args. rewrite Hskip.
  assert ((match
             match ra_load_list run_args with
             | Some l => Listed l
             | None => NoTests
             end
           with
           | Listed (t :: l) => t :: l
           | _ => manager_list_tests
           end) = candidates) as ->.
  { subst candidates. by destruct (ra_load_list run_args) as [[|? ?]|]. }
  set (skip := _expand_skip_list re_compile re_search candidates
                 (Some (item :: items))).
  exists (list_to_set candidates ∖ dom skip).
  cbv beta iota zeta. split; [|split; [|split]].
  - simpl. by destruct (negb _).
  - simpl. by destruct (negb _).
  - intros t. rewrite elem_of_difference, elem_of_list_to_set. split.
    + intros [Ht Hd]. split; [done|].
      assert (Hk := expanded_keys re_compile re_search candidates
                      (item :: items) t Ht).
      fold skip in Hk. split.
      * intros regex reason pattern Hin Hc.
        destruct (re_search pattern t) eqn:Hs; [|done].
        exfalso. apply Hd, Hk. left. eauto 10.
      * intros reason Hin. destruct (re_compile t) eqn:Hc; [eauto|].
        exfalso. apply Hd, Hk. right. eauto.
    + intros (Ht & Hm & Hb). split; [done|].
      intros Hd.
      apply (expanded_keys re_compile re_search candidates
               (item :: items) t Ht) in Hd
        as [(regex & reason & p & Hin & Hc & Hs) | (reason & Hin & Hc)].
      * rewrite (Hm _ _ _ Hin Hc) in Hs. done.
      * destruct (Hb _ Hin) as [p Hp]. congruence.
  - simpl. case_bool_decide; simpl; done.
Qed.

Lemma load_list_leaves_out_skipped_witness :
  exists left_over : gset string,
    load_list (setup literal_compile contains true (fun r => r)
                     [] "/tmp/load-list" (Some sample_run_args) [])
      = Remaining left_over /\
    written (setup literal_compile contains true (fun r => r)
                   [] "/tmp/load-list" (Some sample_run_args) [])
      = (if bool_decide (left_over = ∅) then None
         else Some ("/tmp/load-list", JoinedInAnyOrder left_over)).
Proof.
  destruct (load_list_leaves_out_skipped string string literal_compile
              contains true (fun r => r) [] "/tmp/load-list"
              (Some sample_run_args) [] ("api", "slow")
              [("x[id-1]", "flaky")] eq_refl)
    as (left_over & Hl & _ & _ & Hw).
  exists left_over. split; [exact Hl | exact Hw].
Defined.


(** X10: a skip list that takes every candidate out leaves the run without
    any restriction.  When a pattern that compiles is found in each
    candidate test, [setup] writes no load list file and records no
    temporary file, so the command carries no [--load-list]. *)
Theorem nothing_left_means_no_load_list :
  forall (Pattern Reason : Type) (re_compile : string -> option Pattern)
         (re_search : Pattern -> string -> bool) (use_testr : bool)
         (prepare_run_args : run_args -> run_args)
         (manager_list_tests : list string) (path : string)
         (context_run_args : option (run_args (Reason := Reason)))
         (tmp_files : list string)
         (item : string * Reason) (items : list (string * Reason)),
    let run_args := prepare_run_args (default no_run_args context_run_args) in
    let candidates :=
      match ra_load_list run_args with
      | Some (t :: l) => t :: l
      | _ => manager_list_tests
      end in
    let st := setup re_compile re_search use_testr prepare_run_args
                    manager_list_tests path context_run_args tmp_files in
    ra_skip_list run_args = Some (item :: items) ->
    (forall t, t ∈ candidates ->
       exists regex reason pattern,
         (regex, reason) ∈ item :: items /\
         re_compile regex = Some pattern /\ re_search pattern t = true) ->
    written st = None /\
    _tmp_files st = tmp_files /\
    testr_cmd st =
      [if use_testr then "testr" else "stestr"; "run"; "--subunit"] ++
      concurrency_args use_testr (default 0 (ra_concurrency run_args)) ++
      (if ra_failed run_args then ["--failing"] else []) ++
      match ra_pattern run_args with
      | Some (String c p) => [String c p]
      | _ => []
      end.
Proof.
  intros Pattern Reason re_compile re_search use_testr prepare_run_args
         manager_list_tests path context_run_args tmp_files item items
         run_args candidates st Hskip Hall.
  subst st. unfold setup. fold run_args. rewrite Hskip.
  rewrite concurrency_flags.
  assert ((match
             match ra_load_list run_args with
             | Some l => Listed l
             | None => NoTests
             end
           with
           | Listed (t :: l) => t :: l
           | _ => manager_list_tests
           end) = candidates) as ->.
  { subst candidates. by destruct (ra_load_list run_args) as [[|? ?]|]. }
  set (skip := _expand_skip_list re_compile re_search candidates
                 (Some (item :: items))).
  assert (list_to_set candidates ∖ dom skip = (∅ : gset string)) as Hempty.
  { apply set_eq. intros t.
    rewrite elem_of_difference, elem_of_list_to_set.
    split; [|by intros ?%elem_of_empty].
    intros [Ht Hd]. exfalso. apply Hd.
    apply (expanded_keys re_compile re_search candidates (item :: items) t Ht).
    left. by apply Hall. }
  cbv beta iota zeta. rewrite Hempty. simpl.
  rewrite bool_decide_true by done. simpl.
  split; [done|]. split; [done|].
  destruct (ra_failed run_args), (ra_pattern run_args) as [[|ch p]|]; simpl;
    rewrite <- ?app_assoc, ?app_nil_r; reflexivity.
Qed.

Lemma nothing_left_means_no_load_list_witness :
  written (setup literal_compile contains false (fun r => r)
                 [] "/tmp/load-list" (Some skip_everything) [])
    = None.
Proof.
  apply (nothing_left_means_no_load_list string string literal_compile
           contains false (fun r => r) [] "/tmp/load-list"
           (Some skip_everything) [] ("tempest", "all of it") []).
  - reflexivity.
  - intros t Ht. exists "tempest", "all of it", "tempest".
    split; [left|]. split; [reflexivity|].
    repeat (apply elem_of_cons in Ht as [-> | Ht]; [reflexivity|]).
    by apply elem_of_nil in Ht.
Defined.


(** X11: [cleanup] removes the temporary files on record, and nothing
    else.  A path exists afterwards exactly when it existed before and is
    not on record; a recorded file that is already gone is passed over.
    The file that [setup] wrote is on record. *)
Theorem cleanup_removes_recorded_files :
  forall (tmp_files : list string) (fs : gset string),
    (forall p, p ∈ cleanup tmp_files fs <-> p ∈ fs /\ p ∉ tmp_files) /\
    forall (Pattern Reason : Type) (re_compile : string -> option Pattern)
           (re_search : Pattern -> string -> bool) (use_testr : bool)
           (prepare_run_args : run_args -> run_args)
           (manager_list_tests : list string) (path : string)
           (context_run_args : option (run_args (Reason := Reason)))
           (file : string) (text : content),
      let st := setup re_compile re_search use_testr prepare_run_args
                      manager_list_tests path context_run_args tmp_files in
      written st = Some (file, text) ->
      file ∉ cleanup (_tmp_files st) (fs ∪ {[file]}).
Proof.
  intros tmp_files fs.
  assert (forall tmp (fs : gset string) p,
            p ∈ cleanup tmp fs <-> p ∈ fs /\ p ∉ tmp) as Hc.
  { clear. induction tmp as [|f tmp IH]; intros fs p.
    - simpl. split; [|by intros [? _]].
      intros Hp. split; [done|]. apply not_elem_of_nil.
    - unfold cleanup in *. simpl. rewrite IH, not_elem_of_cons.
      case_bool_decide as Hf.
      + rewrite elem_of_difference, elem_of_singleton. tauto.
      + split; [|tauto]. intros [Hp Ht]. repeat split; try done.
        by intros ->. }
  split; [apply Hc|].
  intros Pattern Reason re_compile re_search use_testr prepare_run_args
         manager_list_tests path context_run_args file text st Hw.
  rewrite Hc. intros [_ Hn]. apply Hn. clear Hn Hc.
  subst st. unfold setup in *.
  destruct (match ra_skip_list _ with
            | Some (item :: items) => _
            | _ => _
            end) as [ll ns].
  destruct (tests_truthy ll); simpl in *; [|done].
  inversion Hw; subst. apply elem_of_app. right. left.
Qed.

Lemma cleanup_removes_recorded_files_witness :
  "/tmp/load-list" ∉
    cleanup (_tmp_files (setup literal_compile contains true (fun r => r)
                               [] "/tmp/load-list" (Some one_test) []))
            ({["/etc/hosts"]} ∪ {["/tmp/load-list"]}).
Proof.
  apply (proj2 (cleanup_removes_recorded_files [] {["/etc/hosts"]})
           string string literal_compile contains true (fun r => r) []
           "/tmp/load-list" (Some one_test) "/tmp/load-list"
           (Joined "tempest.api.a")).
  reflexivity.
Defined.

(** The command of the sample run: four workers, the load list, and the
    pattern last. *)
Example sample_command :
  testr_cmd (setup literal_compile contains true (fun r => r)
                   [] "/tmp/load-list" (Some sample_run_args) [])
  = ["testr"; "run"; "--subunit"; "--parallel"; "--concurrency"; "4";
     "--load-list"; "/tmp/load-list"; "scenario"].
Proof. vm_compute. reflexivity. Qed.


End TestrRunFacts.

(** ** The multihost engine *)

Module MultihostFacts.
Import Multihost.

Section Update.

Context {E : Type}.
Variable format : string -> E + string.

Lemma split_at_first_bad (l1 l2 before after : list string) s :
  l1 ++ l2 = before ++ s :: after ->
  (exists mid, l1 = before ++ s :: mid) \/
  (exists pre, before = l1 ++ pre /\ l2 = pre ++ s :: after).
Proof.
  revert before. induction l1 as [|x l1 IH]; intros before H.
  - right. exists before. done.
  - destruct before as [|b before]; simpl in H.
    + inversion H; subst. left. by exists l1.
    + inversion H; subst.
      destruct (IH before ltac:(done)) as [[mid ->] | (pre & -> & ->)].
      * left. by exists mid.
      * right. by exists pre.
Qed.

Lemma items_ok (d : list (string * value)) :
  Forall (fun kv => entry_ok format (snd kv)) d ->
  (Forall (formats format) (flat_map (fun kv => strings (snd kv)) d) ->
   exists d', update_items format (_update_controller_ip format) d = Updated d' /\
     map (fun kv => (fst kv, shape (snd kv))) d'
       = map (fun kv => (fst kv, shape (snd kv))) d /\
     Forall2 (fun s s' => format s = inr s') (flat_map (fun kv => strings (snd kv)) d)
                       (flat_map (fun kv => strings (snd kv)) d')) /\
  (forall before s after e,
     flat_map (fun kv => strings (snd kv)) d = before ++ s :: after ->
     Forall (formats format) before -> format s = inl e ->
     update_items format (_update_controller_ip format) d = FormatRaised e).
Proof.
  induction 1 as [|[k x] d [Hx_ok Hx_bad] _ [IH_ok IH_bad]]; simpl in *.
  - split.
    + intros _. exists []. done.
    + intros before s after e H. by destruct before.
  - split.
    + intros Hall. apply Forall_app in Hall as [Hx Hd].
      destruct (Hx_ok Hx) as (x' & -> & Sx & Fx).
      destruct (IH_ok Hd) as (d' & -> & Sd & Fd).
      exists ((k, x') :: d'). simpl. split; [done|]. split.
      * by rewrite Sx, Sd.
      * by apply Forall2_app.
    + intros before s after e H Hb Hs.
      apply split_at_first_bad in H as [[mid H] | (pre & -> & H)].
      * by rewrite (Hx_bad _ _ _ _ H Hb Hs).
      * apply Forall_app in Hb as [Hx Hpre].
        destruct (Hx_ok Hx) as (x' & -> & _).
        by rewrite (IH_bad _ _ _ _ H Hpre Hs).
Qed.

Lemma elems_ok (l : list value) :
  Forall (entry_ok format) l ->
  (Forall (formats format) (flat_map strings l) ->
   exists l', update_elems format (_update_controller_ip format) l = Updated l' /\
     map shape l' = map shape l /\
     Forall2 (fun s s' => format s = inr s') (flat_map strings l) (flat_map strings l')) /\
  (forall before s after e,
     flat_map strings l = before ++ s :: after ->
     Forall (formats format) before -> format s = inl e ->
     update_elems format (_update_controller_ip format) l = FormatRaised e).
Proof.
  induction 1 as [|x l [Hx_ok Hx_bad] _ [IH_ok IH_bad]]; simpl in *.
  - split.
    + intros _. exists []. done.
    + intros before s after e H. by destruct before.
  - split.
    + intros Hall. apply Forall_app in Hall as [Hx Hl].
      destruct (Hx_ok Hx) as (x' & -> & Sx & Fx).
      destruct (IH_ok Hl) as (l' & -> & Sl & Fl).
      exists (x' :: l'). simpl. split; [done|]. split.
      * by rewrite Sx, Sl.
      * by apply Forall2_app.
    + intros before s after e H Hb Hs.
      apply split_at_first_bad in H as [[mid H] | (pre & -> & H)].
      * by rewrite (Hx_bad _ _ _ _ H Hb Hs).
      * apply Forall_app in Hb as [Hx Hpre].
        destruct (Hx_ok Hx) as (x' & -> & _).
        by rewrite (IH_bad _ _ _ _ H Hpre Hs).
Qed.

Lemma every_entry_ok (x : value) : entry_ok format x.
Proof.
  induction x as [s|d IH|l IH| |b|z] using value_nested_ind.
  - split; simpl.
    + intros Hall. apply Forall_cons in Hall as [[s' Hs] _]. rewrite Hs.
      exists (VStr s'). repeat split. simpl. by repeat constructor.
    + intros before s0 after e H Hb Hs.
      destruct before as [|? [|? ?]]; simplify_eq/=. by rewrite Hs.
  - destruct (items_ok d IH) as [Hok Hbad]. split; simpl.
    + intros Hall. destruct (Hok Hall) as (d' & -> & Sd & Fd).
      exists (VDict d'). simpl. by rewrite Sd.
    + intros before s after e H Hb Hs. by rewrite (Hbad _ _ _ _ H Hb Hs).
  - destruct (elems_ok l IH) as [Hok Hbad]. split; simpl.
    + intros Hall. destruct (Hok Hall) as (l' & -> & Sl & Fl).
      exists (VList l'). simpl. by rewrite Sl.
    + intros before s after e H Hb Hs. by rewrite (Hbad _ _ _ _ H Hb Hs).
  - split; simpl; [by exists VNone|]. intros before; by destruct before.
  - split; simpl; [by exists (VBool b)|]. intros before; by destruct before.
  - split; simpl; [by exists (VNum z)|]. intros before; by destruct before.
Qed.

Lemma update_is_entry (obj : value) :
  is_container obj = true ->
  _update_controller_ip format obj = update_entry format (_update_controller_ip format) obj.
Proof. by destruct obj. Qed.

End Update.

(** X13: the update changes the strings and nothing else.  On a dictionary
    or a list whose strings, at any depth, can all be formatted, the call
    returns with the same keys, the same nesting and the same other values,
    and with each string replaced by its formatted form. *)
Theorem update_formats_every_string :
  forall (E : Type) (format : string -> E + string) (obj : value),
    is_container obj = true ->
    Forall (fun s => exists s', format s = inr s') (strings obj) ->
    exists obj',
      _update_controller_ip format obj = Updated obj' /\
      shape obj' = shape obj /\
      Forall2 (fun s s' => format s = inr s') (strings obj) (strings obj').
Proof.
  intros E format obj Hc Hall. rewrite update_is_entry by done.
  by apply every_entry_ok.
Qed.

Lemma update_formats_every_string_witness :
  exists obj',
    _update_controller_ip sample_format sample_node = Updated obj' /\
    shape obj' = shape sample_node /\
    Forall2 (fun s s' => sample_format s = inr s')
            (strings sample_node) (strings obj').
Proof.
  apply (update_formats_every_string string sample_format sample_node).
  - reflexivity.
  - repeat constructor; eexists; reflexivity.
Defined.

(** X14: the first string that cannot be formatted stops the update.  On a
    dictionary or a list, when the strings reached before [s] can be
    formatted and [str.format] raises on [s], the call raises that
    exception.  An object that is neither a dictionary nor a list, a plain
    string for one, is not formatted: the call ends on the unbound
    [keyval]. *)
Theorem update_stops_at_first_bad_string :
  forall (E : Type) (format : string -> E + string) (obj : value),
    (forall before s after e,
       is_container obj = true ->
       strings obj = before ++ s :: after ->
       Forall (fun s => exists s', format s = inr s') before ->
       format s = inl e ->
       _update_controller_ip format obj = FormatRaised e) /\
    (is_container obj = false ->
     _update_controller_ip format obj = UnboundLocalError).
Proof.
  intros E format obj. split.
  - intros before s after e Hc H Hb Hs. rewrite update_is_entry by done.
    by eapply every_entry_ok.
  - by destruct obj.
Qed.

Lemma update_stops_at_first_bad_string_witness :
  _update_controller_ip sample_format bad_node = FormatRaised "{controller}".
Proof.
  apply (proj1 (update_stops_at_first_bad_string string sample_format
                  bad_node)
           ["DevstackEngine"] "{controller}" ["{other}"] "{controller}").
  - reflexivity.
  - reflexivity.
  - repeat constructor; eexists; reflexivity.
  - reflexivity.
Defined.

End MultihostFacts.
